(** * IPL scorecard: a shallow embedding of [ipl_scorecard.py]

    The Python program keeps, for every live match, a [ScoreCard] object
    that points at two [Team] objects, which in turn point at [Player]
    objects.  The same [Player] can be reached through a roster and through
    the scorecard's striker / non-striker / bowler fields, so objects live
    in an explicit store and are referred to by address.  Every method is
    a computation in a state-and-exception monad: a raised exception keeps
    the mutations performed before it, as in Python. *)

From Stdlib Require Import ZArith Lia Ascii String.
From stdpp Require Import gmap strings list fin_maps.

Local Open Scope Z_scope.
Local Open Scope string_scope.
Local Open Scope list_scope.

(** ** Exceptions and results *)

(** A dictionary key as it shows in a [KeyError]. *)
Inductive pykey :=
| KStr (s : string)
| KInt (z : Z).

(** The built-in exceptions the program can raise.  It has no [raise]
    statement of its own: these come from subscripting a dict, from [int]
    and from attribute access on [None]. *)
Inductive exn :=
| KeyError (k : pykey)
| ValueError (literal : string)
| AttributeError (attr : string).

(** [LookupError] is the base class of [KeyError] (and of [IndexError],
    which this program never raises). *)
Definition is_LookupError (e : exn) : bool :=
  match e with
  | KeyError _ => true
  | _ => false
  end.

Inductive result (A : Type) :=
| Ok (a : A)
| Raise (e : exn).
Arguments Ok {A} a.
Arguments Raise {A} e.

Definition is_Ok {A} (r : result A) : bool :=
  match r with
  | Ok _ => true
  | Raise _ => false
  end.

(** ** The state-and-exception monad *)

Definition M (S A : Type) : Type := S -> S * result A.

Section MonadOps.
Context {S : Type}.

Definition ret {A} (a : A) : M S A := fun s => (s, Ok a).

Definition raise {A} (e : exn) : M S A := fun s => (s, Raise e).

Definition bind {A B} (m : M S A) (k : A -> M S B) : M S B :=
  fun s =>
    match m s with
    | (s', Ok a) => k a s'
    | (s', Raise e) => (s', Raise e)
    end.

Definition get : M S S := fun s => (s, Ok s).

Definition modify (f : S -> S) : M S unit := fun s => (f s, Ok tt).

(** Lift a value that is either computed or raised, without touching
    the state. *)
Definition lift {A} (r : result A) : M S A := fun s => (s, r).

(** [for x in xs: body x]. *)
Fixpoint for_each {A} (xs : list A) (body : A -> M S unit) : M S unit :=
  match xs with
  | [] => ret tt
  | x :: rest => bind (body x) (fun _ => for_each rest body)
  end.
End MonadOps.

Notation "x <- m ;; k" := (bind m (fun x => k))
  (at level 100, m at next level, right associativity).
Notation "m ;; k" := (bind m (fun _ => k))
  (at level 100, right associativity).

(** Run a computation on a component of the state ([self.field.method()]). *)
Definition zoom {S T A} (proj : S -> T) (upd : T -> S -> S) (m : M T A) : M S A :=
  fun s =>
    match m (proj s) with
    | (t', r) => (upd t' s, r)
    end.

(** [d[k]] on a dict: [KeyError] when the key is missing. *)
Definition getitem {K V} `{Countable K} (show : K -> pykey)
    (d : gmap K V) (k : K) : result V :=
  match d !! k with
  | Some v => Ok v
  | None => Raise (KeyError (show k))
  end.

(** ** Stat counters *)

Module BattingBehaviour.
Record t := mk {
  runs_scored : Z;
  balls_faced : Z;
  boundary_types : list Z;
  boundaries : gmap Z Z
}.

(** [__init__]: note that [boundaries] starts as the empty dict. *)
Definition init : t := mk 0 0 [4; 6] ∅.

Definition set_runs_scored (v : Z) (b : t) : t :=
  mk v (balls_faced b) (boundary_types b) (boundaries b).
Definition set_balls_faced (v : Z) (b : t) : t :=
  mk (runs_scored b) v (boundary_types b) (boundaries b).
Definition set_boundaries (v : gmap Z Z) (b : t) : t :=
  mk (runs_scored b) (balls_faced b) (boundary_types b) v.

(** [self.boundaries[run] += 1] reads the entry first, so it raises
    [KeyError] when the bucket does not exist yet. *)
Definition add_run (run : Z) : M t unit :=
  modify (fun b => set_runs_scored (runs_scored b + run) b) ;;
  modify (fun b => set_balls_faced (balls_faced b + 1) b) ;;
  b <- get ;;
  if bool_decide (run ∈ boundary_types b) then
    c <- lift (getitem KInt (boundaries b) run) ;;
    modify (set_boundaries (<[run := c + 1]> (boundaries b)))
  else ret tt.
End BattingBehaviour.

Module BowlingBehaviour.
Record t := mk {
  wickets_taken : Z;
  runs_accumulated : Z;
  balls_done : Z;
  wides : Z;
  no_balls : Z
}.

Definition init : t := mk 0 0 0 0 0.

Definition add_ball : M t unit :=
  modify (fun b => mk (wickets_taken b) (runs_accumulated b)
                      (balls_done b + 1) (wides b) (no_balls b)).

Definition add_wicket : M t unit :=
  modify (fun b => mk (wickets_taken b + 1) (runs_accumulated b)
                      (balls_done b) (wides b) (no_balls b)).

Definition add_run (run : Z) : M t unit :=
  modify (fun b => mk (wickets_taken b) (runs_accumulated b + run)
                      (balls_done b) (wides b) (no_balls b)).

Definition add_extra (extra_type : string) (run : Z) : M t unit :=
  (if bool_decide (extra_type = "wides") then
     modify (fun b => mk (wickets_taken b) (runs_accumulated b)
                         (balls_done b) (wides b + run) (no_balls b))
   else if bool_decide (extra_type = "noballs") then
     modify (fun b => mk (wickets_taken b) (runs_accumulated b)
                         (balls_done b) (wides b) (no_balls b + run))
   else ret tt) ;;
  add_run run.
End BowlingBehaviour.

(** ** Players and teams *)

Module Player.
Record t := mk {
  name : string;
  batting_behaviour : BattingBehaviour.t;
  bowling_behaviour : BowlingBehaviour.t
}.

Definition init (name : string) : t :=
  mk name BattingBehaviour.init BowlingBehaviour.init.

(** [self.batting_behaviour.m()] and [self.bowling_behaviour.m()]. *)
Definition batting {A} (m : M BattingBehaviour.t A) : M t A :=
  zoom batting_behaviour
       (fun b p => mk (name p) b (bowling_behaviour p)) m.

Definition bowling {A} (m : M BowlingBehaviour.t A) : M t A :=
  zoom bowling_behaviour
       (fun b p => mk (name p) (batting_behaviour p) b) m.
End Player.

#[global] Instance Player_inhabited : Inhabited Player.t :=
  populate (Player.init "").

Module Team.
(** [players] is the roster: the addresses of the [Player] objects, in
    insertion order. *)
Record t := mk {
  players : list nat;
  extras : gmap string Z;
  runs_scored : Z;
  wickets : Z
}.

Definition init : t := mk [] ∅ 0 0.

Definition add_player (player : nat) : M t unit :=
  modify (fun tm => mk (players tm ++ [player]) (extras tm)
                       (runs_scored tm) (wickets tm)).

Definition add_run (run : Z) : M t unit :=
  modify (fun tm => mk (players tm) (extras tm)
                       (runs_scored tm + run) (wickets tm)).

Definition set_extras (v : gmap string Z) (tm : t) : t :=
  mk (players tm) v (runs_scored tm) (wickets tm).

Definition add_extras (extra_type : string) (run : Z) : M t unit :=
  tm <- get ;;
  match extras tm !! extra_type with
  | None => modify (set_extras (<[extra_type := run]> (extras tm)))
  | Some old => modify (set_extras (<[extra_type := old + run]> (extras tm)))
  end.

Definition add_wicket : M t unit :=
  modify (fun tm => mk (players tm) (extras tm)
                       (runs_scored tm) (wickets tm + 1)).
End Team.

#[global] Instance Team_inhabited : Inhabited Team.t := populate Team.init.

(** ** Over policy *)

Inductive OverCalculator :=
| SixBallOverCalculator.

(** [calculate] returns the dict [{'overs': _, 'balls': _}]; [//] and [%]
    are floor division and its remainder, as [Z.div] and [Z.modulo]. *)
Definition calculate (oc : OverCalculator) (balls : Z) : Z * Z :=
  match oc with
  | SixBallOverCalculator => (balls / 6, balls mod 6)
  end.

(** Falls off the end, hence returns [None], for anything but 6. *)
Definition get_over_calculator (num_balls : option Z)
    : result (option OverCalculator) :=
  if bool_decide (num_balls = Some 6) then Ok (Some SixBallOverCalculator)
  else Ok None.

(** ** The object store *)

(** [Player] and [Team] objects by address.  Python references never
    dangle; a lookup of an address that holds nothing reads the freshly
    constructed object, which no well-formed store ever does. *)
Record Heap := mkHeap {
  player_objs : gmap nat Player.t;
  team_objs : gmap nat Team.t
}.

Definition the_player (h : Heap) (p : nat) : Player.t := player_objs h !!! p.
Definition the_team (h : Heap) (l : nat) : Team.t := team_objs h !!! l.

(** A method call on the object at an address. *)
Definition on_player {A} (p : nat) (m : M Player.t A) : M Heap A :=
  zoom (fun h => the_player h p)
       (fun v h => mkHeap (<[p := v]> (player_objs h)) (team_objs h)) m.

Definition on_team {A} (l : nat) (m : M Team.t A) : M Heap A :=
  zoom (fun h => the_team h l)
       (fun v h => mkHeap (player_objs h) (<[l := v]> (team_objs h))) m.

(** ** What [__repr__] returns *)

Record TeamRepr := mkTeamRepr {
  repr_runs_scored : Z;
  repr_wickets : Z;
  repr_extras : gmap string Z;
  repr_players : list Player.t
}.

(** [None.__repr__()] is the string ['None']: an unset team or player
    shows as [None] here. *)
Record ScoreCardRepr := mkScoreCardRepr {
  repr_date : option string;
  repr_venue : option string;
  repr_city : option string;
  repr_batting_team : option TeamRepr;
  repr_bowling_team : option TeamRepr;
  repr_striker : option Player.t;
  repr_non_striker : option Player.t;
  repr_bowler : option Player.t;
  repr_overs : Z * Z
}.

Definition Team_repr (h : Heap) (tm : Team.t) : TeamRepr :=
  mkTeamRepr (Team.runs_scored tm) (Team.wickets tm) (Team.extras tm)
             (the_player h <$> Team.players tm).

(** ** The scorecard *)

Module ScoreCard.
Record t := mk {
  balls_per_over : option Z;
  date : option string;
  venue : option string;
  city : option string;
  batting_team : option nat;
  bowling_team : option nat;
  striker : option nat;
  non_striker : option nat;
  current_bowler : option nat;
  balls : Z
}.

Definition init : t := mk None None None None None None None None None 0.

(** A method runs on the receiver's own fields and on the store its
    references point into. *)
Record state := mkState {
  self : t;
  heap : Heap
}.

Definition in_heap {A} (m : M Heap A) : M state A :=
  zoom heap (fun h st => mkState (self st) h) m.

Definition set_self (f : t -> t) : M state unit :=
  modify (fun st => mkState (f (self st)) (heap st)).

(** [self.fld.attr]: attribute access on [None] raises. *)
Definition deref (fld : t -> option nat) (attr : string) : M state nat :=
  st <- get ;;
  match fld (self st) with
  | Some l => ret l
  | None => raise (AttributeError attr)
  end.

Definition set_balls_per_over (v : option Z) : M state unit :=
  set_self (fun c => mk v (date c) (venue c) (city c) (batting_team c)
                        (bowling_team c) (striker c) (non_striker c)
                        (current_bowler c) (balls c)).

Definition set_date (v : option string) : M state unit :=
  set_self (fun c => mk (balls_per_over c) v (venue c) (city c)
                        (batting_team c) (bowling_team c) (striker c)
                        (non_striker c) (current_bowler c) (balls c)).

Definition set_batting_team (v : option nat) : M state unit :=
  set_self (fun c => mk (balls_per_over c) (date c) (venue c) (city c) v
                        (bowling_team c) (striker c) (non_striker c)
                        (current_bowler c) (balls c)).

Definition set_bowling_team (v : option nat) : M state unit :=
  set_self (fun c => mk (balls_per_over c) (date c) (venue c) (city c)
                        (batting_team c) v (striker c) (non_striker c)
                        (current_bowler c) (balls c)).

Definition set_striker (v : option nat) (c : t) : t :=
  mk (balls_per_over c) (date c) (venue c) (city c) (batting_team c)
     (bowling_team c) v (non_striker c) (current_bowler c) (balls c).

Definition set_non_striker (v : option nat) (c : t) : t :=
  mk (balls_per_over c) (date c) (venue c) (city c) (batting_team c)
     (bowling_team c) (striker c) v (current_bowler c) (balls c).

Definition set_current_bowler (v : option nat) (c : t) : t :=
  mk (balls_per_over c) (date c) (venue c) (city c) (batting_team c)
     (bowling_team c) (striker c) (non_striker c) v (balls c).

Definition set_balls (v : Z) (c : t) : t :=
  mk (balls_per_over c) (date c) (venue c) (city c) (batting_team c)
     (bowling_team c) (striker c) (non_striker c) (current_bowler c) v.

Definition add_run (run : Z) : M state unit :=
  bt <- deref batting_team "add_run" ;;
  in_heap (on_team bt (Team.add_run run)) ;;
  s <- deref striker "batting_behaviour" ;;
  in_heap (on_player s (Player.batting (BattingBehaviour.add_run run))) ;;
  b <- deref current_bowler "bowling_behaviour" ;;
  in_heap (on_player b (Player.bowling (BowlingBehaviour.add_run run))) ;;
  b <- deref current_bowler "bowling_behaviour" ;;
  in_heap (on_player b (Player.bowling BowlingBehaviour.add_ball)).

Definition add_extra (extra_type : string) (run : Z) : M state unit :=
  bt <- deref batting_team "add_extras" ;;
  in_heap (on_team bt (Team.add_extras extra_type run)) ;;
  bw <- deref bowling_team "add_extras" ;;
  in_heap (on_team bw (Team.add_extras extra_type run)) ;;
  bt <- deref batting_team "add_run" ;;
  in_heap (on_team bt (Team.add_run run)) ;;
  b <- deref current_bowler "bowling_behaviour" ;;
  in_heap (on_player b
             (Player.bowling (BowlingBehaviour.add_extra extra_type run))).

Definition add_wicket : M state unit :=
  bt <- deref batting_team "add_wicket" ;;
  in_heap (on_team bt Team.add_wicket) ;;
  bw <- deref bowling_team "add_wicket" ;;
  in_heap (on_team bw Team.add_wicket) ;;
  b <- deref current_bowler "bowling_behaviour" ;;
  in_heap (on_player b (Player.bowling BowlingBehaviour.add_wicket)).

Definition add_ball : M state unit :=
  set_self (fun c => set_balls (balls c + 1) c) ;;
  b <- deref current_bowler "bowling_behaviour" ;;
  in_heap (on_player b (Player.bowling BowlingBehaviour.add_ball)).

Definition get_overs : M state (Z * Z) :=
  st <- get ;;
  over_calculator <- lift (get_over_calculator (balls_per_over (self st))) ;;
  match over_calculator with
  | Some oc => ret (calculate oc (balls (self st)))
  | None => raise (AttributeError "calculate")
  end.

(** The body of each of the three loops of [set_current_players]. *)
Definition assign_if_named (wanted : string)
    (assign : option nat -> t -> t) (p : nat) : M state unit :=
  st <- get ;;
  if bool_decide (Player.name (the_player (heap st) p) = wanted)
  then set_self (assign (Some p))
  else ret tt.

(** One loop: every roster entry with the wanted name is assigned in
    turn, so the last one stays; with no such entry nothing is assigned
    and nothing is raised. *)
Definition pick (roster : list nat) (wanted : string)
    (assign : option nat -> t -> t) : M state unit :=
  for_each roster (assign_if_named wanted assign).

Definition set_current_players (striker_name non_striker_name bowler_name : string)
    : M state unit :=
  bt <- deref batting_team "players" ;;
  st <- get ;;
  pick (Team.players (the_team (heap st) bt)) striker_name set_striker ;;
  bt <- deref batting_team "players" ;;
  st <- get ;;
  pick (Team.players (the_team (heap st) bt)) non_striker_name set_non_striker ;;
  bw <- deref bowling_team "players" ;;
  st <- get ;;
  pick (Team.players (the_team (heap st) bw)) bowler_name set_current_bowler.

(** [__repr__]: the only step that can fail is [get_overs]. *)
Definition repr : M state ScoreCardRepr :=
  st <- get ;;
  let c := self st in
  let h := heap st in
  overs <- get_overs ;;
  ret (mkScoreCardRepr (date c) (venue c) (city c)
         (Team_repr h <$> (the_team h <$> batting_team c))
         (Team_repr h <$> (the_team h <$> bowling_team c))
         (the_player h <$> striker c)
         (the_player h <$> non_striker c)
         (the_player h <$> current_bowler c)
         overs).
End ScoreCard.

#[global] Instance ScoreCard_inhabited : Inhabited ScoreCard.t :=
  populate ScoreCard.init.

(** ** The match registry *)

(** The whole program state: the object store, the [ScoreCard] objects by
    address, and the two class attributes of [Matches]. *)
Record World := mkWorld {
  objs : Heap;
  cards : gmap nat ScoreCard.t;
  Matches_instance : bool;
  Matches_matches : gmap string nat
}.

Definition the_card (w : World) (c : nat) : ScoreCard.t := cards w !!! c.

(** A method call on the scorecard at address [c]. *)
Definition on_card {A} (c : nat) (m : M ScoreCard.state A) : M World A :=
  zoom (fun w => ScoreCard.mkState (the_card w c) (objs w))
       (fun st w => mkWorld (ScoreCard.heap st)
                            (<[c := ScoreCard.self st]> (cards w))
                            (Matches_instance w) (Matches_matches w)) m.

Module Matches.
(** [Matches()]: the first instantiation also rebinds the class
    attribute [matches] to a new empty dict. *)
Definition new : M World unit :=
  modify (fun w =>
    if Matches_instance w then w
    else mkWorld (objs w) (cards w) true ∅).

(** A [ScoreCard] object is always truthy, so the [get] test asks
    whether the key is present. *)
Definition get_scorecard (match_id : string) : M World nat :=
  w <- get ;;
  match Matches_matches w !! match_id with
  | Some c => ret c
  | None =>
      let c := fresh (dom (cards w)) in
      modify (fun w => mkWorld (objs w) (<[c := ScoreCard.init]> (cards w))
                               (Matches_instance w)
                               (<[match_id := c]> (Matches_matches w))) ;;
      ret c
  end.
End Matches.

(** ** Event classification *)

(** A score row as a dict from column name to the text of the cell. *)
Abbreviation run_info := (gmap string string).

(** The [RunCalculator] interface. *)
Record RunCalculator := mkRunCalculator {
  matches_event : run_info -> result bool;
  calculate_run : run_info -> M ScoreCard.state unit
}.

Definition and_then {A B} (r : result A) (k : A -> result B) : result B :=
  match r with
  | Ok a => k a
  | Raise e => Raise e
  end.

(** A plain decimal literal: an optional sign and at least one digit.
    This is the part of Python's [int] the examples below run on. *)
Definition digit_of (a : ascii) : option Z :=
  let n := Z.of_nat (nat_of_ascii a) in
  if bool_decide (48 <= n <= 57) then Some (n - 48) else None.

Fixpoint digits_value (acc : Z) (s : string) : option Z :=
  match s with
  | EmptyString => Some acc
  | String a rest =>
      match digit_of a with
      | Some d => digits_value (10 * acc + d) rest
      | None => None
      end
  end.

Definition unsigned_literal (s : string) : option Z :=
  match s with
  | EmptyString => None
  | _ => digits_value 0 s
  end.

Definition decimal_literal (s : string) : option Z :=
  match s with
  | String "-" rest => Z.opp <$> unsigned_literal rest
  | String "+" rest => unsigned_literal rest
  | _ => unsigned_literal s
  end.

Section Dispatcher.
(** Python's built-in [int] on a string: the number it denotes, or
    nothing where [int] raises [ValueError]. *)
Variable py_int : string -> option Z.

Definition int (s : string) : result Z :=
  match py_int s with
  | Some z => Ok z
  | None => Raise (ValueError s)
  end.

Definition NormalRunCalculator : RunCalculator := {|
  matches_event ri :=
    and_then (getitem KStr ri "runs_off_bat") (fun s =>
    and_then (int s) (fun n =>
    Ok (bool_decide (n > 0))));
  calculate_run ri :=
    s <- lift (getitem KStr ri "runs_off_bat") ;;
    n <- lift (int s) ;;
    ScoreCard.add_run n
|}.

Definition extra_types : list string :=
  ["wides"; "noballs"; "byes"; "legbyes"; "penalty"].

Definition ExtraRunCalculator : RunCalculator := {|
  matches_event ri :=
    and_then (getitem KStr ri "extras") (fun s =>
    and_then (int s) (fun n =>
    Ok (bool_decide (n > 0))));
  calculate_run ri :=
    for_each extra_types (fun extra_type =>
      cell <- lift (getitem KStr ri extra_type) ;;
      if bool_decide (cell ≠ "") then
        cell <- lift (getitem KStr ri extra_type) ;;
        n <- lift (int cell) ;;
        ScoreCard.add_extra extra_type n
      else ret tt)
|}.

Definition WicketCalculator : RunCalculator := {|
  matches_event ri :=
    and_then (getitem KStr ri "wicket_type") (fun s =>
    Ok (bool_decide (s ≠ "")));
  calculate_run ri := ScoreCard.add_wicket
|}.

Definition get_run_calculators : list RunCalculator :=
  [NormalRunCalculator; ExtraRunCalculator; WicketCalculator].

(** The body of the loop over the calculators: test the predicate,
    and run the mutation on the scorecard when it holds. *)
Definition apply_calculator (ri : run_info) (scorecard : nat)
    (run_calculator : RunCalculator) : M World unit :=
  hit <- lift (matches_event run_calculator ri) ;;
  if (hit : bool) then on_card scorecard (calculate_run run_calculator ri)
  else ret tt.

(** The body of [ScoreEntryParser.parse] once the row has been turned
    into a dict: look the scorecard up, run every calculator whose
    predicate holds, return the scorecard's [__repr__]. *)
Definition dispatch (ri : run_info) : M World ScoreCardRepr :=
  Matches.new ;;
  match_id <- lift (getitem KStr ri "match_id") ;;
  scorecard <- Matches.get_scorecard match_id ;;
  for_each get_run_calculators (apply_calculator ri scorecard) ;;
  on_card scorecard ScoreCard.repr.

(** [ScoreEntryParser.make_dict]: returns the empty dict, whatever the
    row. *)
Definition make_dict (request : list string) : run_info := ∅.

Definition parse (request : list string) : M World ScoreCardRepr :=
  let ri := make_dict request in
  dispatch ri.
End Dispatcher.

(** ** The mutation API as data *)

Inductive mutation :=
| applyRunsOffBat (n : Z)
| applyExtra (category : string) (n : Z)
| applyWicket
| applyBallBowled.

Definition apply (m : mutation) : M ScoreCard.state unit :=
  match m with
  | applyRunsOffBat n => ScoreCard.add_run n
  | applyExtra category n => ScoreCard.add_extra category n
  | applyWicket => ScoreCard.add_wicket
  | applyBallBowled => ScoreCard.add_ball
  end.

(** The state a caller is left with after a call, whether it returned or
    raised. *)
Definition after {S A} (m : M S A) (s : S) : S := fst (m s).
Definition outcome {S A} (m : M S A) (s : S) : result A := snd (m s).

(** The state after a whole sequence of calls, for a caller that carries
    on after an exception. *)
Definition apply_all (ms : list mutation) (st : ScoreCard.state)
    : ScoreCard.state :=
  foldl (fun s m => after (apply m) s) st ms.

(** ** Derived quantities the claims speak of *)

Definition batters_runs (h : Heap) (roster : list nat) : Z :=
  foldr (fun p acc =>
           BattingBehaviour.runs_scored
             (Player.batting_behaviour (the_player h p)) + acc) 0 roster.

Definition extras_total (d : gmap string Z) : Z :=
  map_fold (fun _ v acc => v + acc) 0 d.

(** Total = runs off the bat of the roster + all extras, for the team at
    address [l]. *)
Definition team_balanced (h : Heap) (l : nat) : Prop :=
  Team.runs_scored (the_team h l)
  = batters_runs h (Team.players (the_team h l))
    + extras_total (Team.extras (the_team h l)).

Definition legal_balls (h : Heap) (p : nat) : Z :=
  BowlingBehaviour.balls_done (Player.bowling_behaviour (the_player h p)).

Definition names_of (h : Heap) (roster : list nat) : list string :=
  (fun p => Player.name (the_player h p)) <$> roster.

Definition entries_named (h : Heap) (roster : list nat) (nm : string) : nat :=
  length (filter (fun n => n = nm) (names_of h roster)).

(** ** A small match used for the concrete evaluations *)

(** Team 0 bats with players A (address 0) and B (address 1); team 1
    bowls with X (address 2).  Every object is as its constructor leaves
    it. *)
Definition demo_heap : Heap :=
  mkHeap
    (<[0%nat := Player.init "A"]>
       (<[1%nat := Player.init "B"]> (<[2%nat := Player.init "X"]> ∅)))
    (<[0%nat := Team.mk [0%nat; 1%nat] ∅ 0 0]>
       (<[1%nat := Team.mk [2%nat] ∅ 0 0]> ∅)).

Definition demo_card : ScoreCard.t :=
  ScoreCard.mk (Some 6) None None None (Some 0%nat) (Some 1%nat)
               (Some 0%nat) (Some 1%nat) (Some 2%nat) 0.

Definition demo_state : ScoreCard.state := ScoreCard.mkState demo_card demo_heap.

Definition demo_world : World :=
  mkWorld demo_heap (<[0%nat := demo_card]> ∅) true (<["M1" := 0%nat]> ∅).

(** ** Relating the state before and after a call *)

(** [keeps R m]: whatever state [m] starts in, the state it leaves,
    returning or raising, is [R]-related to it. *)
Definition keeps {S A} (R : S -> S -> Prop) (m : M S A) : Prop :=
  forall s, R s (after m s).

(** Same legal-ball count for every player, same match ball counter,
    same current bowler. *)
Definition same_ball_counts (st st' : ScoreCard.state) : Prop :=
  (forall p, legal_balls (ScoreCard.heap st') p = legal_balls (ScoreCard.heap st) p)
  /\ ScoreCard.balls (ScoreCard.self st') = ScoreCard.balls (ScoreCard.self st)
  /\ ScoreCard.current_bowler (ScoreCard.self st')
     = ScoreCard.current_bowler (ScoreCard.self st).

(** ** Resolving a name against a roster *)

(** The roster entry [set_current_players] ends up with for a name: the
    last player on the roster carrying it, if any. *)
Definition last_named (h : Heap) (roster : list nat) (wanted : string)
    : option nat :=
  last (filter (fun p => Player.name (the_player h p) = wanted) roster).

(** The reference after one of the loops: the entry found, else the
    reference as it was. *)
Definition resolve_name (h : Heap) (roster : list nat) (wanted : string)
    (old : option nat) : option nat :=
  match last_named h roster wanted with
  | Some p => Some p
  | None => old
  end.

Definition assign_found (assign : option nat -> ScoreCard.t -> ScoreCard.t)
    (found : option nat) (c : ScoreCard.t) : ScoreCard.t :=
  match found with
  | Some p => assign (Some p) c
  | None => c
  end.

(** ** Events used for the concrete evaluations *)

(** The registry lookup [parse] starts with: [Matches()] and then
    [get_scorecard]. *)
Definition find_scorecard (match_id : string) : M World nat :=
  Matches.new ;; Matches.get_scorecard match_id.

Definition score_row (runs_off_bat extras noballs wicket_type : string)
    : run_info :=
  list_to_map
    [("match_id", "M1"); ("runs_off_bat", runs_off_bat); ("extras", extras);
     ("wides", ""); ("noballs", noballs); ("byes", ""); ("legbyes", "");
     ("penalty", ""); ("wicket_type", wicket_type)].

(** A no-ball hit for four on which a batter is run out. *)
Definition four_off_a_no_ball : run_info := score_row "4" "1" "1" "run out".

(** A single, with a garbled extras column. *)
Definition garbled_extras : run_info := score_row "1" "x" "" "".

(** ** The batting side of a match in progress *)

(** What the data model asks of a scorecard once the match has begun, as
    far as the batting team's ledger is concerned: both teams are set and
    are two different objects, the striker is on the batting roster, and
    no player object is listed twice on it. *)
Definition batting_side_ready (st : ScoreCard.state) (bt : nat) : Prop :=
  ScoreCard.batting_team (ScoreCard.self st) = Some bt
  /\ (exists bw, ScoreCard.bowling_team (ScoreCard.self st) = Some bw /\ bw ≠ bt)
  /\ (exists s, ScoreCard.striker (ScoreCard.self st) = Some s
              /\ s ∈ Team.players (the_team (ScoreCard.heap st) bt))
  /\ NoDup (Team.players (the_team (ScoreCard.heap st) bt)).

(** Same team and striker references, same rosters. *)
Definition same_setup (st st' : ScoreCard.state) : Prop :=
  ScoreCard.batting_team (ScoreCard.self st')
  = ScoreCard.batting_team (ScoreCard.self st)
  /\ ScoreCard.bowling_team (ScoreCard.self st')
     = ScoreCard.bowling_team (ScoreCard.self st)
  /\ ScoreCard.striker (ScoreCard.self st')
     = ScoreCard.striker (ScoreCard.self st)
  /\ forall l, Team.players (the_team (ScoreCard.heap st') l)
              = Team.players (the_team (ScoreCard.heap st) l).

(** Same totals and extras for every team, same runs off the bat for
    every player. *)
Definition same_accounts (st st' : ScoreCard.state) : Prop :=
  (forall l, Team.runs_scored (the_team (ScoreCard.heap st') l)
             = Team.runs_scored (the_team (ScoreCard.heap st) l)
             /\ Team.extras (the_team (ScoreCard.heap st') l)
                = Team.extras (the_team (ScoreCard.heap st) l))
  /\ forall p, BattingBehaviour.runs_scored
                (Player.batting_behaviour (the_player (ScoreCard.heap st') p))
              = BattingBehaviour.runs_scored
                  (Player.batting_behaviour (the_player (ScoreCard.heap st) p)).

(** A single, a four, a wide, a dot ball, a wicket, another ball. *)
Definition demo_over : list mutation :=
  [applyRunsOffBat 1; applyRunsOffBat 4; applyExtra "wides" 1;
   applyBallBowled; applyWicket; applyBallBowled].

(** ** The stream entry point *)

Inductive Parser :=
| InfoEntryParser
| ScoreEntryParser.

(** [len(event) <= 5] picks the info parser. *)
Definition parser_factory (event : list string) : Parser :=
  if bool_decide (length event <= 5)%nat then InfoEntryParser
  else ScoreEntryParser.

(** Why Python refuses to bind the arguments of a call. *)
Inductive binding_error :=
| missing_arguments (callee : string) (parameters : list string)
| too_many_arguments (callee : string) (given : nat).

(** How a call made for a stream message ends: it returns, it raises
    one of the exceptions above, or it raises the [TypeError] of a call
    whose arguments do not fit the parameters. *)
Inductive ended (A : Type) :=
| Returned (a : A)
| Uncaught (e : exn)
| TypeError (why : binding_error).
Arguments Returned {A} a.
Arguments Uncaught {A} e.
Arguments TypeError {A} why.

(** A call [obj.callee(args)] of a method with one required positional
    parameter besides [self].  The arguments are bound before the body
    runs: with none the parameter is missing, with more than one there
    are too many, and in both cases the body is not entered. *)
Definition call_method {A} (callee parameter : string)
    (body : string -> M World A) (args : list string) (w : World)
    : World * ended A :=
  match args with
  | [] => (w, TypeError (missing_arguments callee [parameter]))
  | [arg] =>
      match body arg w with
      | (w', Ok a) => (w', Returned a)
      | (w', Raise e) => (w', Uncaught e)
      end
  | _ => (w, TypeError (too_many_arguments callee (length args)))
  end.

(** [InfoEntryParser.parse]: [match = Matches()], then
    [match.get_scorecard()], a call with no argument; the method itself
    has no [return], so a call that went through would give [None]. *)
Definition InfoEntryParser_parse (request : list string) (w : World)
    : World * ended (option ScoreCardRepr) :=
  match Matches.new w with
  | (w1, Raise e) => (w1, Uncaught e)
  | (w1, Ok _) =>
      match call_method "get_scorecard" "match_id" Matches.get_scorecard [] w1
      with
      | (w2, Returned _) => (w2, Returned None)
      | (w2, Uncaught e) => (w2, Uncaught e)
      | (w2, TypeError why) => (w2, TypeError why)
      end
  end.

Definition Parser_parse (py_int : string -> option Z) (parser : Parser)
    (request : list string) (w : World)
    : World * ended (option ScoreCardRepr) :=
  match parser with
  | InfoEntryParser => InfoEntryParser_parse request w
  | ScoreEntryParser =>
      match parse py_int request w with
      | (w', Ok resp) => (w', Returned (Some resp))
      | (w', Raise e) => (w', Uncaught e)
      end
  end.

(** [handle_stream_message]: the state is the world and what has been
    printed so far. *)
Definition handle_stream_message (py_int : string -> option Z)
    (event : list string) (w : World) (printed : list (option ScoreCardRepr))
    : (World * list (option ScoreCardRepr)) * ended unit :=
  let parser := parser_factory event in
  match Parser_parse py_int parser event w with
  | (w', Returned resp) => ((w', printed ++ [resp]), Returned tt)
  | (w', Uncaught e) => ((w', printed), Uncaught e)
  | (w', TypeError why) => ((w', printed), TypeError why)
  end.

(** ** Sequences of calls on one counter *)

Definition sum_runs (runs : list Z) : Z := foldr Z.add 0 runs.

(** A batter's record after facing the given balls in turn, for a
    caller that carries on after an exception. *)
Definition bat_all (runs : list Z) (b : BattingBehaviour.t) : BattingBehaviour.t :=
  foldl (fun b run => after (BattingBehaviour.add_run run) b) b runs.

Inductive bowling_call :=
| bowl_ball
| bowl_wicket
| bowl_run (run : Z)
| bowl_extra (extra_type : string) (run : Z).

Definition bowl (c : bowling_call) : M BowlingBehaviour.t unit :=
  match c with
  | bowl_ball => BowlingBehaviour.add_ball
  | bowl_wicket => BowlingBehaviour.add_wicket
  | bowl_run run => BowlingBehaviour.add_run run
  | bowl_extra extra_type run => BowlingBehaviour.add_extra extra_type run
  end.

Definition bowl_all (cs : list bowling_call) (b : BowlingBehaviour.t)
    : BowlingBehaviour.t :=
  foldl (fun b c => after (bowl c) b) b cs.

(** The amount a call passes, if any. *)
Definition amount_of (c : bowling_call) : Z :=
  match c with
  | bowl_run run | bowl_extra _ run => run
  | _ => 0
  end.

(** No counter is negative, and wides and no-balls are part of the runs
    conceded. *)
Definition bowling_figures_sane (b : BowlingBehaviour.t) : Prop :=
  0 <= BowlingBehaviour.wickets_taken b
  /\ 0 <= BowlingBehaviour.balls_done b
  /\ 0 <= BowlingBehaviour.wides b
  /\ 0 <= BowlingBehaviour.no_balls b
  /\ BowlingBehaviour.wides b + BowlingBehaviour.no_balls b
     <= BowlingBehaviour.runs_accumulated b.

(** ** A sound registry *)

(** Every registered identifier points at an existing scorecard, and no
    two identifiers point at the same one. *)
Definition registry_sound (w : World) : Prop :=
  (forall match_id c, Matches_matches w !! match_id = Some c ->
                      is_Some (cards w !! c))
  /\ forall id1 id2 c, Matches_matches w !! id1 = Some c ->
                       Matches_matches w !! id2 = Some c -> id1 = id2.

(** The scorecard at address [c] is as [ScoreCard()] builds it. *)
Definition blank_card (c : nat) (w : World) : Prop :=
  the_card w c = ScoreCard.init.

(** From a blank scorecard at [c]: still blank, same store, same
    registry. *)
Definition blank_card_kept (c : nat) (w w' : World) : Prop :=
  blank_card c w ->
  blank_card c w' /\ objs w' = objs w
  /\ Matches_matches w' = Matches_matches w.

(** A call on a scorecard that has no field set leaves everything as it
    was. *)
Definition untouched_when_blank (st st' : ScoreCard.state) : Prop :=
  ScoreCard.self st = ScoreCard.init -> st' = st.

(** Same batting record for every player. *)
Definition same_batting (st st' : ScoreCard.state) : Prop :=
  forall p, Player.batting_behaviour (the_player (ScoreCard.heap st') p)
            = Player.batting_behaviour (the_player (ScoreCard.heap st) p).

(** ** The match ball counter *)

(** Same match ball counter on the receiver. *)
Definition same_counter (st st' : ScoreCard.state) : Prop :=
  ScoreCard.balls (ScoreCard.self st') = ScoreCard.balls (ScoreCard.self st).

(** Every scorecard that exists still exists, with the ball counter it
    had. *)
Definition counters_kept (w w' : World) : Prop :=
  forall c card, cards w !! c = Some card ->
                 exists card', cards w' !! c = Some card'
                               /\ ScoreCard.balls card' = ScoreCard.balls card.

(** ** Reading an event cell by cell *)

(** The body of the loop of [ExtraRunCalculator.calculate_run], for one
    category. *)
Definition record_extra (py_int : string -> option Z) (ri : run_info)
    (extra_type : string) : M ScoreCard.state unit :=
  cell <- lift (getitem KStr ri extra_type) ;;
  if bool_decide (cell ≠ "") then
    cell <- lift (getitem KStr ri extra_type) ;;
    n <- lift (int py_int cell) ;;
    ScoreCard.add_extra extra_type n
  else ret tt.

(** The categories among [categories], in that order, whose cell is not
    empty, each with the integer its cell holds; nothing when one of the
    cells is missing or is no integer. *)
Fixpoint read_cells (py_int : string -> option Z) (ri : run_info)
    (categories : list string) : option (list (string * Z)) :=
  match categories with
  | [] => Some []
  | extra_type :: rest =>
      match ri !! extra_type with
      | None => None
      | Some cell =>
          if bool_decide (cell ≠ "") then
            match py_int cell, read_cells py_int ri rest with
            | Some n, Some amounts => Some ((extra_type, n) :: amounts)
            | _, _ => None
            end
          else read_cells py_int ri rest
      end
  end.

(** What the run calculator does on the scorecard at [c] for a
    runs-off-bat cell holding the integer [n]. *)
Definition run_part (n : Z) (c : nat) : M World unit :=
  if bool_decide (n > 0) then on_card c (ScoreCard.add_run n) else ret tt.

(** The extras recorded in turn on the scorecard at [c]. *)
Definition extras_part (amounts : list (string * Z)) (c : nat) : M World unit :=
  on_card c (for_each amounts (fun entry => ScoreCard.add_extra entry.1 entry.2)).

(** No run off the bat, two extras announced, a wide, and a garbled
    no-balls cell. *)
Definition garbled_noballs : run_info :=
  list_to_map
    [("match_id", "M1"); ("runs_off_bat", "0"); ("extras", "2");
     ("wides", "1"); ("noballs", "x"); ("byes", ""); ("legbyes", "");
     ("penalty", ""); ("wicket_type", "")].

(** ** What one event credits *)

Definition sum_amounts (amounts : list (string * Z)) : Z :=
  foldr (fun entry acc => entry.2 + acc) 0 amounts.

(** From store [h] to store [h']: the batting team [bt] has [total] more
    runs, [extras] more extras and [wickets] more wickets, the striker
    [s] has [bat] more runs off the bat, and the bowler [b] has conceded
    [conceded] more runs and taken [taken] more wickets. *)
Definition credited (bt s b : nat) (total extras wickets bat conceded taken : Z)
    (h h' : Heap) : Prop :=
  Team.runs_scored (the_team h' bt) = Team.runs_scored (the_team h bt) + total
  /\ extras_total (Team.extras (the_team h' bt))
     = extras_total (Team.extras (the_team h bt)) + extras
  /\ Team.wickets (the_team h' bt) = Team.wickets (the_team h bt) + wickets
  /\ BattingBehaviour.runs_scored (Player.batting_behaviour (the_player h' s))
     = BattingBehaviour.runs_scored (Player.batting_behaviour (the_player h s))
       + bat
  /\ BowlingBehaviour.runs_accumulated
       (Player.bowling_behaviour (the_player h' b))
     = BowlingBehaviour.runs_accumulated
         (Player.bowling_behaviour (the_player h b)) + conceded
  /\ BowlingBehaviour.wickets_taken (Player.bowling_behaviour (the_player h' b))
     = BowlingBehaviour.wickets_taken
         (Player.bowling_behaviour (the_player h b)) + taken.

(** * Properties *)

(** ** Reading the store after a method call *)

Lemma the_player_insert_eq h p v :
  the_player (mkHeap (<[p := v]> (player_objs h)) (team_objs h)) p = v.
Proof. unfold the_player; cbn. apply lookup_total_insert_eq. Qed.

Lemma the_player_insert_ne h p q v :
  p ≠ q ->
  the_player (mkHeap (<[p := v]> (player_objs h)) (team_objs h)) q
  = the_player h q.
Proof. intros Hne. unfold the_player; cbn. by apply lookup_total_insert_ne. Qed.

Lemma the_team_insert_eq h l v :
  the_team (mkHeap (player_objs h) (<[l := v]> (team_objs h))) l = v.
Proof. unfold the_team; cbn. apply lookup_total_insert_eq. Qed.

Lemma the_team_insert_ne h l k v :
  l ≠ k ->
  the_team (mkHeap (player_objs h) (<[l := v]> (team_objs h))) k
  = the_team h k.
Proof. intros Hne. unfold the_team; cbn. by apply lookup_total_insert_ne. Qed.

(** A call on a team leaves every player as it was, and conversely. *)
Lemma on_team_players {A} l (m : M Team.t A) h p :
  the_player (after (on_team l m) h) p = the_player h p.
Proof.
  unfold after, on_team, zoom. destruct (m (the_team h l)); reflexivity.
Qed.

Lemma on_player_teams {A} p (m : M Player.t A) h l :
  the_team (after (on_player p m) h) l = the_team h l.
Proof.
  unfold after, on_player, zoom. destruct (m (the_player h p)); reflexivity.
Qed.

Lemma on_player_other {A} p (m : M Player.t A) h q :
  p ≠ q -> the_player (after (on_player p m) h) q = the_player h q.
Proof.
  intros Hne. unfold after, on_player, zoom.
  destruct (m (the_player h p)); cbn. by apply the_player_insert_ne.
Qed.

Lemma on_player_same {A} p (m : M Player.t A) h :
  the_player (after (on_player p m) h) p = after m (the_player h p).
Proof.
  unfold after, on_player, zoom.
  destruct (m (the_player h p)); cbn. apply the_player_insert_eq.
Qed.

(** ** The over policy *)

Lemma get_over_calculator_six :
  get_over_calculator (Some 6) = Ok (Some SixBallOverCalculator).
Proof. reflexivity. Qed.

Lemma get_over_calculator_other n :
  n ≠ Some 6 -> get_over_calculator n = Ok None.
Proof.
  intros Hn. unfold get_over_calculator. by rewrite bool_decide_eq_false_2.
Qed.

(** The pair returned for six-ball overs determines the ball count. *)
Lemma calculate_six_roundtrip balls :
  let '(overs, rest) := calculate SixBallOverCalculator balls in
  6 * overs + rest = balls /\ 0 <= rest < 6.
Proof.
  cbn. split.
  - symmetry. apply Z.div_mod. lia.
  - apply Z.mod_pos_bound. lia.
Qed.

Lemma calculate_six_pair balls :
  6 * (balls / 6) + balls mod 6 = balls /\ 0 <= balls mod 6 < 6.
Proof.
  split.
  - symmetry. apply Z.div_mod. lia.
  - apply Z.mod_pos_bound. lia.
Qed.

Lemma bool_decide_ext_if {A} (P Q : Prop) `{Decision P, Decision Q} (x y : A) :
  (P <-> Q) ->
  (if bool_decide P then x else y) = (if bool_decide Q then x else y).
Proof. intros HPQ. by rewrite (bool_decide_ext P Q HPQ). Qed.

(** C7, as the code has it: for every over length other than six,
    [get_over_calculator] raises nothing and returns [None], the absent
    handler; [get_overs] then fails with the [AttributeError] of calling
    [calculate] on [None], and leaves the state as it was. *)
Theorem get_overs_without_policy (n : option Z) :
  n ≠ Some 6 ->
  get_over_calculator n = Ok None
  /\ forall st : ScoreCard.state,
       ScoreCard.balls_per_over (ScoreCard.self st) = n ->
       ScoreCard.get_overs st = (st, Raise (AttributeError "calculate")).
Proof.
  intros Hn. split; [by apply get_over_calculator_other|].
  intros st Hst. unfold ScoreCard.get_overs, bind, get, lift.
  rewrite Hst, (get_over_calculator_other n Hn). reflexivity.
Qed.

Lemma get_overs_without_policy_witness :
  Some 5 ≠ Some 6
  /\ get_over_calculator (Some 5) = Ok None
  /\ forall st : ScoreCard.state,
       ScoreCard.balls_per_over (ScoreCard.self st) = Some 5 ->
       ScoreCard.get_overs st = (st, Raise (AttributeError "calculate")).
Proof.
  split; [discriminate|].
  apply (get_overs_without_policy (Some 5)). discriminate.
Defined.

(** C7 as the spec states it fails: asked for a five-ball over, the
    selection returns normally with no calculator at all, and what
    [get_overs] then raises is an [AttributeError], not a configuration
    error. *)
Lemma over_policy_not_signalled :
  get_over_calculator (Some 5) = Ok None
  /\ is_Ok (get_over_calculator (Some 5)) = true
  /\ outcome ScoreCard.get_overs
       (ScoreCard.mkState
          (ScoreCard.mk (Some 5) None None None None None None None None 0)
          demo_heap)
     = Raise (AttributeError "calculate").
Proof. repeat split. Qed.

(** ** The registry *)

(** C6, as the code has it: asked for a match identifier it does not
    hold, the registry raises nothing; it builds a new [ScoreCard] at an
    unused address, records it under the identifier and returns it.  No
    team, player or existing scorecard changes. *)
Theorem get_scorecard_creates_lazily (w : World) (match_id : string) :
  Matches_matches w !! match_id = None ->
  exists c : nat,
    outcome (Matches.get_scorecard match_id) w = Ok c
    /\ cards w !! c = None
    /\ cards (after (Matches.get_scorecard match_id) w)
       = <[c := ScoreCard.init]> (cards w)
    /\ Matches_matches (after (Matches.get_scorecard match_id) w)
       = <[match_id := c]> (Matches_matches w)
    /\ objs (after (Matches.get_scorecard match_id) w) = objs w.
Proof.
  intros Hnone. exists (fresh (dom (cards w))).
  unfold outcome, after, Matches.get_scorecard, bind, get, modify, ret.
  rewrite Hnone. cbn. repeat split.
  apply not_elem_of_dom, is_fresh.
Qed.

Lemma get_scorecard_creates_lazily_witness :
  Matches_matches demo_world !! "M2" = None
  /\ exists c : nat,
       outcome (Matches.get_scorecard "M2") demo_world = Ok c
       /\ cards demo_world !! c = None
       /\ cards (after (Matches.get_scorecard "M2") demo_world)
          = <[c := ScoreCard.init]> (cards demo_world)
       /\ Matches_matches (after (Matches.get_scorecard "M2") demo_world)
          = <["M2" := c]> (Matches_matches demo_world)
       /\ objs (after (Matches.get_scorecard "M2") demo_world)
          = objs demo_world.
Proof.
  split; [reflexivity|].
  apply (get_scorecard_creates_lazily demo_world "M2"). reflexivity.
Defined.

(** C6 as the spec states it fails: with only match M1 registered, the
    lookup of M2 returns normally and M2 is now in the registry. *)
Lemma unknown_match_is_accepted :
  Matches_matches demo_world !! "M2" = None
  /\ is_Ok (outcome (Matches.get_scorecard "M2") demo_world) = true
  /\ is_Some (Matches_matches (after (Matches.get_scorecard "M2") demo_world)
              !! "M2").
Proof.
  split; [reflexivity|]. split; [reflexivity|].
  eexists. vm_compute. reflexivity.
Qed.

(** C10: whatever the row, [parse] ends in the [KeyError] of looking
    ['match_id'] up in the empty dict that [make_dict] returned.  By then
    only [Matches()] has run: no team, player or scorecard has been
    touched, and the registry has not been asked for a scorecard. *)
Theorem parse_always_raises (py_int : string -> option Z)
    (request : list string) (w : World) :
  parse py_int request w
  = (after Matches.new w, Raise (KeyError (KStr "match_id")))
  /\ objs (after (parse py_int request) w) = objs w
  /\ cards (after (parse py_int request) w) = cards w.
Proof.
  unfold parse, make_dict, dispatch, after, bind, Matches.new, modify, lift,
    getitem.
  rewrite lookup_empty. cbn.
  destruct (Matches_instance w); repeat split.
Qed.

(** ** Rosters *)

Lemma names_of_app h r1 r2 :
  names_of h (r1 ++ r2) = names_of h r1 ++ names_of h r2.
Proof. unfold names_of. apply fmap_app. Qed.

Lemma entries_named_app h r1 r2 nm :
  entries_named h (r1 ++ r2) nm
  = (entries_named h r1 nm + entries_named h r2 nm)%nat.
Proof.
  unfold entries_named. rewrite names_of_app, filter_app. apply length_app.
Qed.

Lemma entries_named_same_objs h h' roster nm :
  player_objs h = player_objs h' ->
  entries_named h roster nm = entries_named h' roster nm.
Proof.
  intros Heq. unfold entries_named, names_of, the_player. by rewrite Heq.
Qed.

(** C5, as the code has it: [add_player] appends without looking at the
    roster, so the number of entries carrying the new player's name grows
    by one each time; no player object is modified by it. *)
Theorem add_player_appends (h : Heap) (l player : nat) :
  let h' := after (on_team l (Team.add_player player)) h in
  Team.players (the_team h' l) = Team.players (the_team h l) ++ [player]
  /\ entries_named h' (Team.players (the_team h' l))
       (Player.name (the_player h player))
     = S (entries_named h (Team.players (the_team h l))
            (Player.name (the_player h player)))
  /\ player_objs h' = player_objs h.
Proof.
  intros h'.
  assert (Hobjs : player_objs h' = player_objs h) by reflexivity.
  assert (Hroster : Team.players (the_team h' l)
                    = Team.players (the_team h l) ++ [player]).
  { subst h'. unfold after, on_team, zoom, Team.add_player, modify.
    simpl fst. by rewrite the_team_insert_eq. }
  split; [exact Hroster|]. split; [|exact Hobjs].
  rewrite Hroster, (entries_named_same_objs h' h) by exact Hobjs.
  rewrite entries_named_app.
  assert (Hone : entries_named h [player] (Player.name (the_player h player))
                 = 1%nat).
  { unfold entries_named, names_of. simpl fmap.
    by rewrite filter_cons_True. }
  rewrite Hone. lia.
Qed.

(** C5 as the spec states it fails: player A is on the roster of team 0;
    adding A again leaves two entries named A. *)
Lemma add_player_duplicates :
  "A" ∈ names_of demo_heap (Team.players (the_team demo_heap 0%nat))
  /\ entries_named (after (on_team 0%nat (Team.add_player 0%nat)) demo_heap)
       (Team.players
          (the_team (after (on_team 0%nat (Team.add_player 0%nat)) demo_heap)
             0%nat))
       "A" = 2%nat.
Proof.
  split.
  - vm_compute. apply list_elem_of_here.
  - vm_compute. reflexivity.
Qed.

(** ** Legal balls *)

Lemma bowling_add_extra_balls extra_type run (b : BowlingBehaviour.t) :
  BowlingBehaviour.balls_done (after (BowlingBehaviour.add_extra extra_type run) b)
  = BowlingBehaviour.balls_done b.
Proof.
  unfold after, BowlingBehaviour.add_extra, BowlingBehaviour.add_run,
    bind, modify, ret.
  repeat case_bool_decide; reflexivity.
Qed.

(** A call that reaches a player only through a bowling-statistics
    method that keeps [balls_done] keeps every legal-ball count. *)
Lemma on_player_bowling_legal_balls {A} b (m : M BowlingBehaviour.t A) h p :
  (forall s, BowlingBehaviour.balls_done (after m s)
             = BowlingBehaviour.balls_done s) ->
  legal_balls (after (on_player b (Player.bowling m)) h) p = legal_balls h p.
Proof.
  intros Hm. unfold legal_balls.
  destruct (decide (b = p)) as [->|Hne].
  - rewrite on_player_same. unfold after, Player.bowling, zoom.
    specialize (Hm (Player.bowling_behaviour (the_player h p))).
    unfold after in Hm.
    destruct (m (Player.bowling_behaviour (the_player h p))); cbn in *.
    exact Hm.
  - by rewrite on_player_other.
Qed.

Lemma on_team_legal_balls {A} l (m : M Team.t A) h p :
  legal_balls (after (on_team l m) h) p = legal_balls h p.
Proof. unfold legal_balls. by rewrite on_team_players. Qed.

(** ** Frame reasoning over the monad *)

Section Keeps.
Context {S : Type} (R : S -> S -> Prop) `{!PreOrder R}.

Lemma keeps_ret {A} (a : A) : keeps R (ret a).
Proof. intros s. unfold after, ret. cbn. reflexivity. Qed.

Lemma keeps_raise {A} e : keeps R (raise (A := A) e).
Proof. intros s. unfold after, raise. cbn. reflexivity. Qed.

Lemma keeps_get : keeps R get.
Proof. intros s. unfold after, get. cbn. reflexivity. Qed.

Lemma keeps_lift {A} (r : result A) : keeps R (lift r).
Proof. intros s. unfold after, lift. cbn. reflexivity. Qed.

Lemma keeps_bind {A B} (m : M S A) (k : A -> M S B) :
  keeps R m -> (forall a, keeps R (k a)) -> keeps R (bind m k).
Proof.
  intros Hm Hk s. specialize (Hm s). unfold after, bind in *.
  destruct (m s) as [s' [a|e]]; cbn in *; [|exact Hm].
  etransitivity; [exact Hm|]. apply Hk.
Qed.

Lemma keeps_for_each {A} (xs : list A) (body : A -> M S unit) :
  (forall x, keeps R (body x)) -> keeps R (for_each xs body).
Proof.
  intros Hbody. induction xs as [|x xs IH]; cbn.
  - apply keeps_ret.
  - apply keeps_bind; [apply Hbody|]. intros _. exact IH.
Qed.
End Keeps.

#[global] Instance same_ball_counts_preorder : PreOrder same_ball_counts.
Proof.
  split.
  - intros st. repeat split.
  - intros s1 s2 s3 (H1 & H2 & H3) (H4 & H5 & H6). repeat split.
    + intros p. by rewrite H4, H1.
    + by rewrite H5, H2.
    + by rewrite H6, H3.
Qed.

Lemma deref_keeps R `{!PreOrder R} fld attr :
  keeps R (ScoreCard.deref fld attr).
Proof.
  unfold ScoreCard.deref. apply (keeps_bind R); [apply (keeps_get R)|].
  intros st. destruct (fld (ScoreCard.self st)).
  - apply (keeps_ret R).
  - apply (keeps_raise R).
Qed.

Lemma in_heap_self {A} (m : M Heap A) st :
  ScoreCard.self (after (ScoreCard.in_heap m) st) = ScoreCard.self st.
Proof.
  unfold after, ScoreCard.in_heap, zoom.
  destruct (m (ScoreCard.heap st)); reflexivity.
Qed.

Lemma in_heap_heap {A} (m : M Heap A) st :
  ScoreCard.heap (after (ScoreCard.in_heap m) st) = after m (ScoreCard.heap st).
Proof.
  unfold after, ScoreCard.in_heap, zoom.
  destruct (m (ScoreCard.heap st)); reflexivity.
Qed.

Lemma team_call_same_ball_counts {A} l (m : M Team.t A) :
  keeps same_ball_counts (ScoreCard.in_heap (on_team l m)).
Proof.
  intros st. unfold same_ball_counts. rewrite in_heap_self, in_heap_heap.
  repeat split. intros p. apply on_team_legal_balls.
Qed.

Lemma bowling_call_same_ball_counts {A} b (m : M BowlingBehaviour.t A) :
  (forall s, BowlingBehaviour.balls_done (after m s)
             = BowlingBehaviour.balls_done s) ->
  keeps same_ball_counts (ScoreCard.in_heap (on_player b (Player.bowling m))).
Proof.
  intros Hm st. unfold same_ball_counts. rewrite in_heap_self, in_heap_heap.
  repeat split. intros p. by apply on_player_bowling_legal_balls.
Qed.

Ltac ball_counts_step :=
  first [ apply (deref_keeps same_ball_counts)
        | apply team_call_same_ball_counts
        | apply (keeps_bind same_ball_counts); [|intros ?] ].

Lemma add_extra_same_ball_counts extra_type run :
  keeps same_ball_counts (ScoreCard.add_extra extra_type run).
Proof.
  unfold ScoreCard.add_extra.
  repeat ball_counts_step.
  apply bowling_call_same_ball_counts. apply bowling_add_extra_balls.
Qed.

Lemma add_wicket_same_ball_counts :
  keeps same_ball_counts ScoreCard.add_wicket.
Proof.
  unfold ScoreCard.add_wicket.
  repeat ball_counts_step.
  apply bowling_call_same_ball_counts. reflexivity.
Qed.

(** C8: [add_extra], for any category and amount and from any state,
    whether it returns or raises, leaves every player's legal-ball count
    (the current bowler's among them), the match ball counter and the
    current-bowler reference as they were; so does [add_wicket], the
    other mutation that is neither a ball bowled nor runs off the bat. *)
Theorem add_extra_keeps_ball_counts (extra_type : string) (run : Z)
    (st : ScoreCard.state) :
  same_ball_counts st (after (ScoreCard.add_extra extra_type run) st)
  /\ same_ball_counts st (after ScoreCard.add_wicket st).
Proof.
  split.
  - apply add_extra_same_ball_counts.
  - apply add_wicket_same_ball_counts.
Qed.

(** ** Equations for running a call *)

Lemma bind_run {S A B} (m : M S A) (k : A -> M S B) s :
  bind m k s
  = match outcome m s with
    | Ok a => k a (after m s)
    | Raise e => (after m s, Raise e)
    end.
Proof. unfold bind, after, outcome. by destruct (m s) as [s' [a|e]]. Qed.

Lemma get_run {S} (s : S) : get s = (s, Ok s).
Proof. reflexivity. Qed.

Lemma deref_run fld attr st :
  ScoreCard.deref fld attr st
  = (st, match fld (ScoreCard.self st) with
         | Some l => Ok l
         | None => Raise (AttributeError attr)
         end).
Proof.
  unfold ScoreCard.deref, bind, get.
  by destruct (fld (ScoreCard.self st)).
Qed.

Lemma in_heap_run {A} (m : M Heap A) st :
  ScoreCard.in_heap m st
  = (ScoreCard.mkState (ScoreCard.self st) (after m (ScoreCard.heap st)),
     outcome m (ScoreCard.heap st)).
Proof.
  unfold ScoreCard.in_heap, zoom, after, outcome.
  by destruct (m (ScoreCard.heap st)).
Qed.

Lemma on_team_run {A} l (m : M Team.t A) h :
  on_team l m h
  = (mkHeap (player_objs h) (<[l := after m (the_team h l)]> (team_objs h)),
     outcome m (the_team h l)).
Proof. unfold on_team, zoom, after, outcome. by destruct (m (the_team h l)). Qed.

Lemma on_player_run {A} p (m : M Player.t A) h :
  on_player p m h
  = (mkHeap (<[p := after m (the_player h p)]> (player_objs h)) (team_objs h),
     outcome m (the_player h p)).
Proof.
  unfold on_player, zoom, after, outcome. by destruct (m (the_player h p)).
Qed.

Lemma batting_run {A} (m : M BattingBehaviour.t A) p :
  Player.batting m p
  = (Player.mk (Player.name p) (after m (Player.batting_behaviour p))
               (Player.bowling_behaviour p),
     outcome m (Player.batting_behaviour p)).
Proof.
  unfold Player.batting, zoom, after, outcome.
  by destruct (m (Player.batting_behaviour p)).
Qed.

Lemma bowling_run {A} (m : M BowlingBehaviour.t A) p :
  Player.bowling m p
  = (Player.mk (Player.name p) (Player.batting_behaviour p)
               (after m (Player.bowling_behaviour p)),
     outcome m (Player.bowling_behaviour p)).
Proof.
  unfold Player.bowling, zoom, after, outcome.
  by destruct (m (Player.bowling_behaviour p)).
Qed.

Lemma run_pair {S A} (m : M S A) s : m s = (after m s, outcome m s).
Proof. unfold after, outcome. by destruct (m s). Qed.

Lemma bind_step {S A B} (m : M S A) (k : A -> M S B) s :
  bind m k s
  = match snd (m s) with
    | Ok a => k a (fst (m s))
    | Raise e => (fst (m s), Raise e)
    end.
Proof. apply bind_run. Qed.

(** The batting counter: what [add_run] leaves and whether it raises. *)
Lemma batting_add_run_outcome run (b : BattingBehaviour.t) :
  outcome (BattingBehaviour.add_run run) b
  = if bool_decide (run ∈ BattingBehaviour.boundary_types b) then
      match BattingBehaviour.boundaries b !! run with
      | Some _ => Ok tt
      | None => Raise (KeyError (KInt run))
      end
    else Ok tt.
Proof.
  unfold outcome, BattingBehaviour.add_run, bind, modify, get, lift, ret,
    getitem. cbn.
  case_bool_decide; [|reflexivity].
  by destruct (BattingBehaviour.boundaries b !! run).
Qed.

Lemma batting_add_run_after run (b : BattingBehaviour.t) :
  after (BattingBehaviour.add_run run) b
  = BattingBehaviour.mk
      (BattingBehaviour.runs_scored b + run)
      (BattingBehaviour.balls_faced b + 1)
      (BattingBehaviour.boundary_types b)
      (if bool_decide (run ∈ BattingBehaviour.boundary_types b) then
         match BattingBehaviour.boundaries b !! run with
         | Some c => <[run := c + 1]> (BattingBehaviour.boundaries b)
         | None => BattingBehaviour.boundaries b
         end
       else BattingBehaviour.boundaries b).
Proof.
  unfold after, BattingBehaviour.add_run, bind, modify, get, lift, ret,
    getitem. cbn.
  case_bool_decide; [|reflexivity].
  by destruct (BattingBehaviour.boundaries b !! run).
Qed.

(** [ScoreCard.add_run], case by case: where it stops and what the store
    holds there. *)
Lemma add_run_run run st :
  ScoreCard.add_run run st
  = match ScoreCard.batting_team (ScoreCard.self st) with
    | None => (st, Raise (AttributeError "add_run"))
    | Some bt =>
        let h1 := after (on_team bt (Team.add_run run)) (ScoreCard.heap st) in
        match ScoreCard.striker (ScoreCard.self st) with
        | None => (ScoreCard.mkState (ScoreCard.self st) h1,
                   Raise (AttributeError "batting_behaviour"))
        | Some s =>
            let h2 :=
              after (on_player s
                       (Player.batting (BattingBehaviour.add_run run))) h1 in
            match outcome (BattingBehaviour.add_run run)
                    (Player.batting_behaviour (the_player h1 s)) with
            | Raise e => (ScoreCard.mkState (ScoreCard.self st) h2, Raise e)
            | Ok _ =>
                match ScoreCard.current_bowler (ScoreCard.self st) with
                | None => (ScoreCard.mkState (ScoreCard.self st) h2,
                           Raise (AttributeError "bowling_behaviour"))
                | Some b =>
                    (ScoreCard.mkState (ScoreCard.self st)
                       (after (on_player b
                                 (Player.bowling BowlingBehaviour.add_ball))
                          (after (on_player b
                                    (Player.bowling
                                       (BowlingBehaviour.add_run run))) h2)),
                     Ok tt)
                end
            end
        end
    end.
Proof.
  destruct st as [[bpo dt vn ct [bt|] bw [s|] ns [b|] bl] h];
    cbv -[BattingBehaviour.add_run lookup_total insert Z.add];
    try reflexivity;
    match goal with
    | |- context [BattingBehaviour.add_run run ?x] =>
        destruct (BattingBehaviour.add_run run x) as [b' [[]|e]]
    end; reflexivity.
Qed.

Lemma on_team_same {A} l (m : M Team.t A) h :
  the_team (after (on_team l m) h) l = after m (the_team h l).
Proof.
  unfold after. rewrite on_team_run. cbn [fst]. apply the_team_insert_eq.
Qed.

Lemma on_team_other {A} l (m : M Team.t A) h k :
  l ≠ k -> the_team (after (on_team l m) h) k = the_team h k.
Proof.
  intros Hne. unfold after. rewrite on_team_run. cbn [fst].
  by apply the_team_insert_ne.
Qed.

(** A bowling-statistics call leaves every batting record alone, and a
    batting-statistics call every bowling record and every name. *)
Lemma bowling_call_batting {A} b (m : M BowlingBehaviour.t A) h q :
  Player.batting_behaviour (the_player (after (on_player b (Player.bowling m)) h) q)
  = Player.batting_behaviour (the_player h q).
Proof.
  destruct (decide (b = q)) as [->|Hne].
  - rewrite on_player_same. unfold after. by rewrite bowling_run.
  - by rewrite on_player_other.
Qed.

Lemma batting_call_bowling {A} s (m : M BattingBehaviour.t A) h q :
  Player.bowling_behaviour (the_player (after (on_player s (Player.batting m)) h) q)
  = Player.bowling_behaviour (the_player h q).
Proof.
  destruct (decide (s = q)) as [->|Hne].
  - rewrite on_player_same. unfold after. by rewrite batting_run.
  - by rewrite on_player_other.
Qed.

Lemma batting_call_same {A} s (m : M BattingBehaviour.t A) h :
  Player.batting_behaviour (the_player (after (on_player s (Player.batting m)) h) s)
  = after m (Player.batting_behaviour (the_player h s)).
Proof. rewrite on_player_same. unfold after. by rewrite batting_run. Qed.

Lemma bowling_call_same {A} b (m : M BowlingBehaviour.t A) h :
  Player.bowling_behaviour (the_player (after (on_player b (Player.bowling m)) h) b)
  = after m (Player.bowling_behaviour (the_player h b)).
Proof. rewrite on_player_same. unfold after. by rewrite bowling_run. Qed.

(** ** Runs off the bat *)

(** [ScoreCard.add_run] with team, striker and bowler set, for a value
    that is no boundary type of the striker or whose boundary bucket
    exists: it returns, having added the value to the batting team's
    total and to the striker's runs, one ball faced to the striker, one
    to the bucket of a boundary value, the value to the bowler's runs
    conceded and one legal ball to the bowler. *)
Lemma add_run_counts (run : Z) (st : ScoreCard.state) (bt s b : nat) :
  ScoreCard.batting_team (ScoreCard.self st) = Some bt ->
  ScoreCard.striker (ScoreCard.self st) = Some s ->
  ScoreCard.current_bowler (ScoreCard.self st) = Some b ->
  let h := ScoreCard.heap st in
  let bat := Player.batting_behaviour (the_player h s) in
  let bowl := Player.bowling_behaviour (the_player h b) in
  (run ∈ BattingBehaviour.boundary_types bat ->
   is_Some (BattingBehaviour.boundaries bat !! run)) ->
  let h' := ScoreCard.heap (after (ScoreCard.add_run run) st) in
  let bat' := Player.batting_behaviour (the_player h' s) in
  let bowl' := Player.bowling_behaviour (the_player h' b) in
  outcome (ScoreCard.add_run run) st = Ok tt
  /\ Team.runs_scored (the_team h' bt) = Team.runs_scored (the_team h bt) + run
  /\ BattingBehaviour.runs_scored bat' = BattingBehaviour.runs_scored bat + run
  /\ BattingBehaviour.balls_faced bat' = BattingBehaviour.balls_faced bat + 1
  /\ (run ∈ BattingBehaviour.boundary_types bat ->
      exists c, BattingBehaviour.boundaries bat !! run = Some c
                /\ BattingBehaviour.boundaries bat' !! run = Some (c + 1))
  /\ BowlingBehaviour.runs_accumulated bowl'
     = BowlingBehaviour.runs_accumulated bowl + run
  /\ BowlingBehaviour.balls_done bowl' = BowlingBehaviour.balls_done bowl + 1.
Proof.
  intros Hbt Hs Hb h bat bowl Hbucket h' bat' bowl'.
  assert (Hok : outcome (BattingBehaviour.add_run run) bat = Ok tt).
  { rewrite batting_add_run_outcome. case_bool_decide as Hin; [|reflexivity].
    destruct (Hbucket Hin) as [c ->]. reflexivity. }
  assert (Hrun : ScoreCard.add_run run st
    = (ScoreCard.mkState (ScoreCard.self st)
         (after (on_player b (Player.bowling BowlingBehaviour.add_ball))
            (after (on_player b (Player.bowling (BowlingBehaviour.add_run run)))
               (after (on_player s (Player.batting (BattingBehaviour.add_run run)))
                  (after (on_team bt (Team.add_run run)) h)))), Ok tt)).
  { rewrite add_run_run, Hbt, Hs, Hb. cbv zeta.
    rewrite on_team_players. fold h bat. by rewrite Hok. }
  assert (Hout : outcome (ScoreCard.add_run run) st = Ok tt)
    by (unfold outcome; by rewrite Hrun).
  assert (Hafter : after (ScoreCard.add_run run) st
                   = fst (ScoreCard.add_run run st)) by reflexivity.
  rewrite Hrun in Hafter. subst h' bat' bowl'. rewrite Hafter.
  cbn [fst snd ScoreCard.heap].
  split; [exact Hout|]. split.
  { rewrite !on_player_teams, on_team_same. reflexivity. }
  match goal with
  | |- context [the_player ?x s] =>
      assert (Hbat : Player.batting_behaviour (the_player x s)
                     = after (BattingBehaviour.add_run run) bat)
        by (by rewrite !bowling_call_batting, batting_call_same,
                 on_team_players);
      assert (Hbowl : Player.bowling_behaviour (the_player x b)
                      = after BowlingBehaviour.add_ball
                          (after (BowlingBehaviour.add_run run) bowl))
        by (by rewrite !bowling_call_same, batting_call_bowling,
                 on_team_players)
  end.
  rewrite Hbat, Hbowl, batting_add_run_after.
  cbn [BattingBehaviour.runs_scored BattingBehaviour.balls_faced
       BattingBehaviour.boundaries].
  split; [reflexivity|]. split; [reflexivity|]. split.
  { intros Hin. destruct (Hbucket Hin) as [c Hc]. exists c. split; [exact Hc|].
    rewrite bool_decide_eq_true_2 by exact Hin. rewrite Hc.
    apply lookup_insert_eq. }
  split; reflexivity.
Qed.

(** C1, where the code departs from it: for a boundary value whose
    bucket the striker's [boundaries] dict does not hold (the dict starts
    empty and nothing ever adds a key to it) [add_run] raises [KeyError]
    after the team total, the striker's runs and balls faced have been
    updated, and before the bowler is touched: no bowling record changes. *)
Theorem add_run_boundary_aborts (run : Z) (st : ScoreCard.state) (bt s : nat) :
  ScoreCard.batting_team (ScoreCard.self st) = Some bt ->
  ScoreCard.striker (ScoreCard.self st) = Some s ->
  let h := ScoreCard.heap st in
  let bat := Player.batting_behaviour (the_player h s) in
  run ∈ BattingBehaviour.boundary_types bat ->
  BattingBehaviour.boundaries bat !! run = None ->
  let h' := ScoreCard.heap (after (ScoreCard.add_run run) st) in
  outcome (ScoreCard.add_run run) st = Raise (KeyError (KInt run))
  /\ (forall p, Player.bowling_behaviour (the_player h' p)
                = Player.bowling_behaviour (the_player h p))
  /\ Team.runs_scored (the_team h' bt) = Team.runs_scored (the_team h bt) + run
  /\ BattingBehaviour.runs_scored (Player.batting_behaviour (the_player h' s))
     = BattingBehaviour.runs_scored bat + run
  /\ BattingBehaviour.balls_faced (Player.batting_behaviour (the_player h' s))
     = BattingBehaviour.balls_faced bat + 1.
Proof.
  intros Hbt Hs h bat Hin Hnone h'.
  assert (Hraise : outcome (BattingBehaviour.add_run run) bat
                   = Raise (KeyError (KInt run))).
  { rewrite batting_add_run_outcome, bool_decide_eq_true_2 by exact Hin.
    by rewrite Hnone. }
  assert (Hrun : ScoreCard.add_run run st
    = (ScoreCard.mkState (ScoreCard.self st)
         (after (on_player s (Player.batting (BattingBehaviour.add_run run)))
            (after (on_team bt (Team.add_run run)) h)),
       Raise (KeyError (KInt run)))).
  { rewrite add_run_run, Hbt, Hs. cbv zeta.
    rewrite on_team_players. fold h bat. by rewrite Hraise. }
  assert (Hout : outcome (ScoreCard.add_run run) st
                 = Raise (KeyError (KInt run)))
    by (unfold outcome; by rewrite Hrun).
  assert (Hafter : after (ScoreCard.add_run run) st
                   = fst (ScoreCard.add_run run st)) by reflexivity.
  rewrite Hrun in Hafter. subst h'. rewrite Hafter.
  cbn [fst snd ScoreCard.heap].
  split; [exact Hout|]. split.
  { intros p. by rewrite batting_call_bowling, on_team_players. }
  split.
  { rewrite on_player_teams, on_team_same. reflexivity. }
  rewrite batting_call_same, on_team_players. fold h bat.
  rewrite batting_add_run_after. split; reflexivity.
Qed.

Lemma add_run_boundary_aborts_witness :
  outcome (ScoreCard.add_run 4) demo_state = Raise (KeyError (KInt 4))
  /\ (forall p,
        Player.bowling_behaviour
          (the_player (ScoreCard.heap (after (ScoreCard.add_run 4) demo_state)) p)
        = Player.bowling_behaviour (the_player demo_heap p))
  /\ Team.runs_scored
       (the_team (ScoreCard.heap (after (ScoreCard.add_run 4) demo_state)) 0%nat)
     = Team.runs_scored (the_team demo_heap 0%nat) + 4
  /\ BattingBehaviour.runs_scored
       (Player.batting_behaviour
          (the_player (ScoreCard.heap (after (ScoreCard.add_run 4) demo_state))
             0%nat))
     = BattingBehaviour.runs_scored
         (Player.batting_behaviour (the_player demo_heap 0%nat)) + 4
  /\ BattingBehaviour.balls_faced
       (Player.batting_behaviour
          (the_player (ScoreCard.heap (after (ScoreCard.add_run 4) demo_state))
             0%nat))
     = BattingBehaviour.balls_faced
         (Player.batting_behaviour (the_player demo_heap 0%nat)) + 1.
Proof.
  apply (add_run_boundary_aborts 4 demo_state 0%nat 0%nat).
  - reflexivity.
  - reflexivity.
  - vm_compute. apply list_elem_of_here.
  - reflexivity.
Defined.

(** ** Current participants *)

Lemma last_named_cons h p roster wanted :
  last_named h (p :: roster) wanted
  = match last_named h roster wanted with
    | Some q => Some q
    | None => if bool_decide (Player.name (the_player h p) = wanted)
              then Some p else None
    end.
Proof.
  unfold last_named. case_bool_decide as Hname.
  - rewrite filter_cons_True by exact Hname. apply last_cons.
  - rewrite filter_cons_False by exact Hname.
    by destruct (last (filter _ roster)).
Qed.

Lemma last_named_None h roster wanted :
  last_named h roster wanted = None <-> wanted ∉ names_of h roster.
Proof.
  unfold last_named, names_of. rewrite last_None, list_elem_of_fmap. split.
  - intros Hnil (p & -> & Hin).
    by apply (filter_nil_not_elem_of _ _ p) in Hnil.
  - intros Hnot. apply elem_of_nil_inv. intros p [Hname Hin]%list_elem_of_filter.
    apply Hnot. exists p. by split.
Qed.

Lemma last_named_Some h roster wanted p :
  last_named h roster wanted = Some p ->
  p ∈ roster /\ Player.name (the_player h p) = wanted.
Proof.
  unfold last_named. intros Hlast%last_Some_elem_of.
  apply list_elem_of_filter in Hlast. tauto.
Qed.

Lemma resolve_name_absent h roster wanted old :
  wanted ∉ names_of h roster -> resolve_name h roster wanted old = old.
Proof.
  intros Hnot. unfold resolve_name.
  by rewrite (proj2 (last_named_None h roster wanted) Hnot).
Qed.

Lemma resolve_name_present h roster wanted old :
  wanted ∈ names_of h roster ->
  exists p, resolve_name h roster wanted old = Some p
            /\ p ∈ roster /\ Player.name (the_player h p) = wanted.
Proof.
  intros Hin. unfold resolve_name.
  destruct (last_named h roster wanted) as [p|] eqn:Hlast.
  - exists p. split; [reflexivity|]. by apply last_named_Some.
  - by apply last_named_None in Hlast.
Qed.

Lemma assign_if_named_run wanted assign p st :
  ScoreCard.assign_if_named wanted assign p st
  = (ScoreCard.mkState
       (if bool_decide (Player.name (the_player (ScoreCard.heap st) p) = wanted)
        then assign (Some p) (ScoreCard.self st) else ScoreCard.self st)
       (ScoreCard.heap st),
     Ok tt).
Proof.
  destruct st as [c h].
  unfold ScoreCard.assign_if_named, bind, get, ScoreCard.set_self, modify, ret.
  cbn [ScoreCard.heap ScoreCard.self]. by case_bool_decide.
Qed.

(** One loop of [set_current_players]: it never raises, it leaves the
    store alone, and it assigns the last roster entry with the name. *)
Lemma pick_run roster wanted assign st :
  (forall a b c, assign a (assign b c) = assign a c) ->
  ScoreCard.pick roster wanted assign st
  = (ScoreCard.mkState
       (assign_found assign (last_named (ScoreCard.heap st) roster wanted)
          (ScoreCard.self st))
       (ScoreCard.heap st),
     Ok tt).
Proof.
  intros Hassign. revert st.
  induction roster as [|p roster IH]; intros [c h].
  - reflexivity.
  - unfold ScoreCard.pick in *. cbn [for_each].
    rewrite bind_step, assign_if_named_run. cbn [fst snd].
    rewrite IH, last_named_cons. cbn [ScoreCard.heap ScoreCard.self].
    destruct (last_named h roster wanted); case_bool_decide;
      cbn [assign_found]; by rewrite ?Hassign.
Qed.

Lemma set_current_players_run striker_name non_striker_name bowler_name st bt bw :
  ScoreCard.batting_team (ScoreCard.self st) = Some bt ->
  ScoreCard.bowling_team (ScoreCard.self st) = Some bw ->
  let h := ScoreCard.heap st in
  ScoreCard.set_current_players striker_name non_striker_name bowler_name st
  = (ScoreCard.mkState
       (assign_found ScoreCard.set_current_bowler
          (last_named h (Team.players (the_team h bw)) bowler_name)
          (assign_found ScoreCard.set_non_striker
             (last_named h (Team.players (the_team h bt)) non_striker_name)
             (assign_found ScoreCard.set_striker
                (last_named h (Team.players (the_team h bt)) striker_name)
                (ScoreCard.self st))))
       h,
     Ok tt).
Proof.
  destruct st as [c h0]. cbn [ScoreCard.self ScoreCard.heap].
  intros Hbt Hbw. cbv zeta.
  set (c1 := assign_found ScoreCard.set_striker
               (last_named h0 (Team.players (the_team h0 bt)) striker_name) c).
  set (c2 := assign_found ScoreCard.set_non_striker
               (last_named h0 (Team.players (the_team h0 bt)) non_striker_name)
               c1).
  assert (Hbt1 : ScoreCard.batting_team c1 = Some bt).
  { subst c1. by destruct (last_named h0 _ striker_name). }
  assert (Hbw2 : ScoreCard.bowling_team c2 = Some bw).
  { subst c2 c1. destruct (last_named h0 _ non_striker_name);
      by destruct (last_named h0 _ striker_name). }
  unfold ScoreCard.set_current_players.
  rewrite bind_step, deref_run. cbn [fst snd ScoreCard.self]. rewrite Hbt.
  rewrite bind_step, !get_run. cbn [fst snd ScoreCard.heap].
  rewrite bind_step, pick_run by reflexivity.
  cbn [fst snd ScoreCard.self ScoreCard.heap]. fold c1.
  rewrite bind_step, deref_run. cbn [fst snd ScoreCard.self]. rewrite Hbt1.
  rewrite bind_step, !get_run. cbn [fst snd ScoreCard.heap].
  rewrite bind_step, pick_run by reflexivity.
  cbn [fst snd ScoreCard.self ScoreCard.heap]. fold c2.
  rewrite bind_step, deref_run. cbn [fst snd ScoreCard.self]. rewrite Hbw2.
  rewrite bind_step, !get_run. cbn [fst snd ScoreCard.heap].
  rewrite pick_run by reflexivity. reflexivity.
Qed.

Lemma assign_found_fields o1 o2 o3 c :
  let c' := assign_found ScoreCard.set_current_bowler o3
              (assign_found ScoreCard.set_non_striker o2
                 (assign_found ScoreCard.set_striker o1 c)) in
  ScoreCard.striker c'
  = match o1 with Some p => Some p | None => ScoreCard.striker c end
  /\ ScoreCard.non_striker c'
     = match o2 with Some p => Some p | None => ScoreCard.non_striker c end
  /\ ScoreCard.current_bowler c'
     = match o3 with Some p => Some p | None => ScoreCard.current_bowler c end.
Proof. destruct o1, o2, o3; repeat split. Qed.

(** Whatever the state, the only exception [set_current_players] can
    raise is the [AttributeError] of reading [players] on an unset team:
    never a [LookupError]. *)
Lemma set_current_players_outcome striker_name non_striker_name bowler_name st :
  let call :=
    ScoreCard.set_current_players striker_name non_striker_name bowler_name in
  outcome call st = Ok tt
  \/ outcome call st = Raise (AttributeError "players").
Proof.
  cbv zeta.
  destruct (ScoreCard.batting_team (ScoreCard.self st)) as [bt|] eqn:Hbt.
  - destruct (ScoreCard.bowling_team (ScoreCard.self st)) as [bw|] eqn:Hbw.
    + left. unfold outcome.
      by rewrite (set_current_players_run _ _ _ st bt bw Hbt Hbw).
    + right. destruct st as [c h0]. cbn [ScoreCard.self] in *.
      set (c1 := assign_found ScoreCard.set_striker
                   (last_named h0 (Team.players (the_team h0 bt)) striker_name)
                   c).
      set (c2 := assign_found ScoreCard.set_non_striker
                   (last_named h0 (Team.players (the_team h0 bt))
                      non_striker_name) c1).
      assert (Hbt1 : ScoreCard.batting_team c1 = Some bt).
      { subst c1. by destruct (last_named h0 _ striker_name). }
      assert (Hbw2 : ScoreCard.bowling_team c2 = None).
      { subst c2 c1. destruct (last_named h0 _ non_striker_name);
          by destruct (last_named h0 _ striker_name). }
      unfold outcome, ScoreCard.set_current_players.
      rewrite bind_step, deref_run. cbn [fst snd ScoreCard.self]. rewrite Hbt.
      rewrite bind_step, !get_run. cbn [fst snd ScoreCard.heap].
      rewrite bind_step, pick_run by reflexivity.
      cbn [fst snd ScoreCard.self ScoreCard.heap]. fold c1.
      rewrite bind_step, deref_run. cbn [fst snd ScoreCard.self]. rewrite Hbt1.
      rewrite bind_step, !get_run. cbn [fst snd ScoreCard.heap].
      rewrite bind_step, pick_run by reflexivity.
      cbn [fst snd ScoreCard.self ScoreCard.heap]. fold c2.
      rewrite bind_step, deref_run. cbn [fst snd ScoreCard.self].
      by rewrite Hbw2.
  - right. unfold outcome, ScoreCard.set_current_players.
    rewrite bind_step, deref_run. cbn [fst snd]. by rewrite Hbt.
Qed.

Lemma set_current_players_no_LookupError
    striker_name non_striker_name bowler_name st e :
  outcome
    (ScoreCard.set_current_players striker_name non_striker_name bowler_name) st
  = Raise e ->
  is_LookupError e = false.
Proof.
  intros Hraise.
  destruct (set_current_players_outcome striker_name non_striker_name
              bowler_name st) as [Hok|Hattr]; cbv zeta in *.
  - congruence.
  - rewrite Hattr in Hraise. by injection Hraise as <-.
Qed.

(** C4, as the code has it: with both teams set, [set_current_players]
    never raises.  Each of the three references becomes the last roster
    entry carrying the given name, on the batting roster for the two
    batters and on the bowling roster for the bowler; a name that is on
    no entry leaves its reference as it was, and the other two are still
    assigned.  The store is not modified. *)
Theorem set_current_players_silent
    (striker_name non_striker_name bowler_name : string)
    (st : ScoreCard.state) (bt bw : nat) :
  ScoreCard.batting_team (ScoreCard.self st) = Some bt ->
  ScoreCard.bowling_team (ScoreCard.self st) = Some bw ->
  let h := ScoreCard.heap st in
  let call :=
    ScoreCard.set_current_players striker_name non_striker_name bowler_name in
  let c' := ScoreCard.self (after call st) in
  outcome call st = Ok tt
  /\ ScoreCard.heap (after call st) = h
  /\ ScoreCard.striker c'
     = resolve_name h (Team.players (the_team h bt)) striker_name
         (ScoreCard.striker (ScoreCard.self st))
  /\ ScoreCard.non_striker c'
     = resolve_name h (Team.players (the_team h bt)) non_striker_name
         (ScoreCard.non_striker (ScoreCard.self st))
  /\ ScoreCard.current_bowler c'
     = resolve_name h (Team.players (the_team h bw)) bowler_name
         (ScoreCard.current_bowler (ScoreCard.self st)).
Proof.
  intros Hbt Hbw h call c'. subst c' call. unfold outcome, after.
  rewrite (set_current_players_run _ _ _ st bt bw Hbt Hbw).
  cbn [fst snd ScoreCard.self ScoreCard.heap]. fold h.
  split; [reflexivity|]. split; [reflexivity|].
  apply assign_found_fields.
Qed.

Lemma set_current_players_silent_witness :
  let call := ScoreCard.set_current_players "B" "A" "nobody" in
  outcome call demo_state = Ok tt
  /\ ScoreCard.heap (after call demo_state) = demo_heap
  /\ ScoreCard.striker (ScoreCard.self (after call demo_state))
     = resolve_name demo_heap (Team.players (the_team demo_heap 0%nat)) "B"
         (Some 0%nat)
  /\ ScoreCard.non_striker (ScoreCard.self (after call demo_state))
     = resolve_name demo_heap (Team.players (the_team demo_heap 0%nat)) "A"
         (Some 1%nat)
  /\ ScoreCard.current_bowler (ScoreCard.self (after call demo_state))
     = resolve_name demo_heap (Team.players (the_team demo_heap 1%nat))
         "nobody" (Some 2%nat).
Proof.
  apply (set_current_players_silent "B" "A" "nobody" demo_state 0%nat 1%nat);
    reflexivity.
Defined.

(** C4 as the spec states it fails: no player of the bowling team is
    called [nobody], yet the call returns normally, and the striker
    reference has moved from A to B. *)
Lemma unknown_bowler_is_ignored :
  let call := ScoreCard.set_current_players "B" "A" "nobody" in
  ("nobody" ∉ names_of demo_heap (Team.players (the_team demo_heap 1%nat)))
  /\ outcome call demo_state = Ok tt
  /\ ScoreCard.striker (ScoreCard.self demo_state) = Some 0%nat
  /\ ScoreCard.striker (ScoreCard.self (after call demo_state)) = Some 1%nat.
Proof.
  cbv zeta. split.
  - vm_compute. by intros [?|[]%elem_of_nil]%elem_of_cons.
  - split; [|split]; vm_compute; reflexivity.
Qed.

(** ** The dispatcher *)

Lemma get_scorecard_returns match_id w :
  exists c, outcome (Matches.get_scorecard match_id) w = Ok c.
Proof.
  unfold outcome, Matches.get_scorecard, bind, get, modify, ret.
  destruct (Matches_matches w !! match_id) as [c|]; eauto.
Qed.

Lemma find_scorecard_run match_id w :
  find_scorecard match_id w
  = Matches.get_scorecard match_id (after Matches.new w).
Proof. reflexivity. Qed.

Lemma find_scorecard_returns match_id w :
  exists c, outcome (find_scorecard match_id) w = Ok c.
Proof.
  unfold outcome. rewrite find_scorecard_run. apply get_scorecard_returns.
Qed.

Lemma new_frame w :
  objs (after Matches.new w) = objs w /\ cards (after Matches.new w) = cards w.
Proof.
  unfold after, Matches.new, modify. cbn [fst].
  by destruct (Matches_instance w).
Qed.

Lemma get_scorecard_frame match_id w :
  objs (after (Matches.get_scorecard match_id) w) = objs w
  /\ forall c card, cards w !! c = Some card ->
                   cards (after (Matches.get_scorecard match_id) w) !! c
                   = Some card.
Proof.
  unfold after, Matches.get_scorecard, bind, get, modify, ret.
  destruct (Matches_matches w !! match_id); cbn [fst snd objs cards];
    (split; [reflexivity|]); intros c card Hc; [exact Hc|].
  rewrite lookup_insert_ne; [exact Hc|].
  intros <-. pose proof (is_fresh (dom (cards w))) as Hfresh.
  apply not_elem_of_dom in Hfresh. congruence.
Qed.

(** The lookup changes no team or player, and no scorecard that
    already exists. *)
Lemma find_scorecard_frame match_id w :
  objs (after (find_scorecard match_id) w) = objs w
  /\ forall c card, cards w !! c = Some card ->
                   cards (after (find_scorecard match_id) w) !! c = Some card.
Proof.
  change (after (find_scorecard match_id) w)
    with (after (Matches.get_scorecard match_id) (after Matches.new w)).
  destruct (new_frame w) as [Hobjs Hcards].
  destruct (get_scorecard_frame match_id (after Matches.new w)) as [Ho Hc].
  split.
  - by rewrite Ho.
  - intros c card Hcard. apply Hc. by rewrite Hcards.
Qed.

(** [dispatch] is the lookup followed by the loop and the snapshot. *)
Lemma dispatch_run py_int (ri : run_info) match_id w :
  ri !! "match_id" = Some match_id ->
  dispatch py_int ri w
  = match outcome (find_scorecard match_id) w with
    | Ok c =>
        (for_each (get_run_calculators py_int) (apply_calculator ri c) ;;
         on_card c ScoreCard.repr) (after (find_scorecard match_id) w)
    | Raise e => (after (find_scorecard match_id) w, Raise e)
    end.
Proof.
  intros Hid. unfold dispatch, outcome, after. rewrite find_scorecard_run.
  rewrite bind_step. change (snd (Matches.new w)) with (Ok (A := unit) tt).
  cbv iota. rewrite bind_step. unfold lift at 1 2, getitem. rewrite Hid.
  cbn [fst snd]. rewrite bind_step. reflexivity.
Qed.

Lemma bind_ext {S A B} (m m' : M S A) (k k' : A -> M S B) s :
  (forall s0, m s0 = m' s0) -> (forall a s0, k a s0 = k' a s0) ->
  bind m k s = bind m' k' s.
Proof.
  intros Hm Hk. unfold bind. rewrite Hm.
  destruct (m' s) as [s' [a|e]]; [apply Hk|reflexivity].
Qed.

Lemma apply_calculator_hit ri c rc w :
  matches_event rc ri = Ok true ->
  apply_calculator ri c rc w = on_card c (calculate_run rc ri) w.
Proof.
  intros Hhit. unfold apply_calculator. rewrite bind_step.
  unfold lift. by rewrite Hhit.
Qed.

Lemma apply_calculator_miss ri c rc w :
  matches_event rc ri = Ok false -> apply_calculator ri c rc w = (w, Ok tt).
Proof.
  intros Hhit. unfold apply_calculator. rewrite bind_step.
  unfold lift. by rewrite Hhit.
Qed.

Lemma apply_calculator_raise ri c rc w e :
  matches_event rc ri = Raise e -> apply_calculator ri c rc w = (w, Raise e).
Proof.
  intros Hhit. unfold apply_calculator. rewrite bind_step.
  unfold lift. by rewrite Hhit.
Qed.

(** The loop does not stop at the first predicate that holds: when all
    three hold, the three mutations run in turn, each from the state the
    previous one returned in. *)
Lemma every_matching_calculator_runs py_int ri c w :
  matches_event (NormalRunCalculator py_int) ri = Ok true ->
  matches_event (ExtraRunCalculator py_int) ri = Ok true ->
  matches_event WicketCalculator ri = Ok true ->
  for_each (get_run_calculators py_int) (apply_calculator ri c) w
  = (on_card c (calculate_run (NormalRunCalculator py_int) ri) ;;
     on_card c (calculate_run (ExtraRunCalculator py_int) ri) ;;
     on_card c (calculate_run WicketCalculator ri) ;;
     ret tt) w.
Proof.
  intros Hrun Hextra Hwicket. unfold get_run_calculators. cbn [for_each].
  repeat (apply bind_ext; [intros ?; by apply apply_calculator_hit|intros _ ?]).
  reflexivity.
Qed.

Lemma zoom_ext {S T A} (proj : S -> T) (upd : T -> S -> S) (m m' : M T A) s :
  (forall t, m t = m' t) -> zoom proj upd m s = zoom proj upd m' s.
Proof. intros Hm. unfold zoom. by rewrite Hm. Qed.

Lemma normal_matches py_int (ri : run_info) s :
  ri !! "runs_off_bat" = Some s ->
  matches_event (NormalRunCalculator py_int) ri
  = match py_int s with
    | Some n => Ok (bool_decide (n > 0))
    | None => Raise (ValueError s)
    end.
Proof.
  intros Hs. cbn. unfold getitem. rewrite Hs. cbn. unfold int.
  by destruct (py_int s).
Qed.

Lemma extra_matches py_int (ri : run_info) x :
  ri !! "extras" = Some x ->
  matches_event (ExtraRunCalculator py_int) ri
  = match py_int x with
    | Some n => Ok (bool_decide (n > 0))
    | None => Raise (ValueError x)
    end.
Proof.
  intros Hx. cbn. unfold getitem. rewrite Hx. cbn. unfold int.
  by destruct (py_int x).
Qed.

Lemma normal_calculate py_int (ri : run_info) s n c w :
  ri !! "runs_off_bat" = Some s -> py_int s = Some n ->
  on_card c (calculate_run (NormalRunCalculator py_int) ri) w
  = on_card c (ScoreCard.add_run n) w.
Proof.
  intros Hs Hn. unfold on_card. apply zoom_ext. intros st.
  unfold NormalRunCalculator, calculate_run, bind, lift, getitem, int.
  by rewrite Hs, Hn.
Qed.

(** *** Monad equations used to read the dispatcher *)

Lemma bind_assoc {S A B C} (m : M S A) (f : A -> M S B) (g : B -> M S C) s :
  bind (bind m f) g s = bind m (fun a => bind (f a) g) s.
Proof. unfold bind. by destruct (m s) as [s' [a|e]]. Qed.

Lemma raise_bind {S A B} (e : exn) (k : A -> M S B) s :
  bind (raise e) k s = raise e s.
Proof. reflexivity. Qed.

Lemma ret_bind {S A B} (a : A) (k : A -> M S B) s : bind (ret a) k s = k a s.
Proof. reflexivity. Qed.

(** [m ;; raise e]: the state [m] leaves, with [e] unless [m] itself
    raised. *)
Lemma then_raise_run {S A B} (m : M S A) (e : exn) s :
  bind m (fun _ => raise (A := B) e) s
  = (after m s, match outcome m s with
                | Ok _ => Raise e
                | Raise e' => Raise e'
                end).
Proof. unfold bind, raise, after, outcome. by destruct (m s) as [s' [a|e']]. Qed.

Lemma on_card_then_raise {A B} c (m : M ScoreCard.state A) (e : exn) w :
  on_card c (bind m (fun _ => raise (A := B) e)) w
  = bind (on_card c m) (fun _ => raise e) w.
Proof.
  unfold on_card, zoom, bind, raise.
  by destruct (m (ScoreCard.mkState (the_card w c) (objs w))) as [st' [a|e']].
Qed.

(** *** One category cell *)

Lemma calculate_extras_loop py_int ri :
  calculate_run (ExtraRunCalculator py_int) ri
  = for_each extra_types (record_extra py_int ri).
Proof. reflexivity. Qed.

Lemma record_extra_empty py_int (ri : run_info) extra_type st :
  ri !! extra_type = Some "" ->
  record_extra py_int ri extra_type st = (st, Ok tt).
Proof.
  intros Hcell. unfold record_extra, bind, lift, getitem. by rewrite Hcell.
Qed.

Lemma record_extra_amount py_int (ri : run_info) extra_type cell n st :
  ri !! extra_type = Some cell -> cell ≠ "" -> py_int cell = Some n ->
  record_extra py_int ri extra_type st = ScoreCard.add_extra extra_type n st.
Proof.
  intros Hcell Hne Hn. unfold record_extra, bind, lift, getitem, int.
  rewrite !Hcell. cbn. rewrite bool_decide_eq_true_2 by exact Hne.
  by rewrite ?Hcell, Hn.
Qed.

Lemma record_extra_malformed py_int (ri : run_info) extra_type cell st :
  ri !! extra_type = Some cell -> cell ≠ "" -> py_int cell = None ->
  record_extra py_int ri extra_type st = (st, Raise (ValueError cell)).
Proof.
  intros Hcell Hne Hn. unfold record_extra, bind, lift, getitem, int.
  rewrite !Hcell. cbn. rewrite bool_decide_eq_true_2 by exact Hne.
  by rewrite ?Hcell, Hn.
Qed.

(** The loop over well-formed cells is the sequence of [add_extra]
    calls for the non-empty ones. *)
Lemma record_extras_prefix py_int ri before amounts more st :
  read_cells py_int ri before = Some amounts ->
  for_each (before ++ more) (record_extra py_int ri) st
  = bind (for_each amounts
            (fun entry => ScoreCard.add_extra entry.1 entry.2))
      (fun _ => for_each more (record_extra py_int ri)) st.
Proof.
  revert amounts st. induction before as [|extra_type before IH];
    intros amounts st Hread.
  - injection Hread as <-. reflexivity.
  - cbn [read_cells] in Hread.
    destruct (ri !! extra_type) as [cell|] eqn:Hcell; [|discriminate].
    cbn [app for_each]. case_bool_decide as Hne.
    + destruct (py_int cell) as [n|] eqn:Hn; [|discriminate].
      destruct (read_cells py_int ri before) as [amounts'|] eqn:Hrest;
        [|discriminate].
      injection Hread as <-. cbn [for_each fst snd]. rewrite bind_assoc.
      apply bind_ext.
      * intros st0. by apply (record_extra_amount _ _ _ cell).
      * intros _ st0. by apply IH.
    + assert (cell = "") as -> by (by destruct (decide (cell = ""))).
      rewrite bind_step, record_extra_empty by exact Hcell. cbn [fst snd].
      by apply IH.
Qed.

Lemma calculate_extras_malformed py_int ri before bad rest amounts cell st :
  extra_types = before ++ bad :: rest ->
  read_cells py_int ri before = Some amounts ->
  ri !! bad = Some cell -> cell ≠ "" -> py_int cell = None ->
  calculate_run (ExtraRunCalculator py_int) ri st
  = bind (for_each amounts
            (fun entry => ScoreCard.add_extra entry.1 entry.2))
      (fun _ => raise (ValueError cell)) st.
Proof.
  intros Htypes Hread Hcell Hne Hbad.
  rewrite calculate_extras_loop, Htypes.
  rewrite (record_extras_prefix _ _ _ _ _ _ Hread).
  apply bind_ext; [reflexivity|]. intros _ st0. cbn [for_each].
  by rewrite bind_step, (record_extra_malformed _ _ _ cell).
Qed.

(** *** The three calculators in turn *)

Lemma dispatch_flat py_int (ri : run_info) match_id w c :
  ri !! "match_id" = Some match_id ->
  outcome (find_scorecard match_id) w = Ok c ->
  dispatch py_int ri w
  = (apply_calculator ri c (NormalRunCalculator py_int) ;;
     apply_calculator ri c (ExtraRunCalculator py_int) ;;
     apply_calculator ri c WicketCalculator ;;
     on_card c ScoreCard.repr) (after (find_scorecard match_id) w).
Proof.
  intros Hid Hc. rewrite (dispatch_run _ _ _ _ Hid), Hc.
  unfold get_run_calculators. cbn [for_each].
  rewrite !bind_assoc. apply bind_ext; [reflexivity|]. intros _ w1.
  rewrite !bind_assoc. apply bind_ext; [reflexivity|]. intros _ w2.
  rewrite !bind_assoc. apply bind_ext; [reflexivity|]. intros _ w3.
  reflexivity.
Qed.

Lemma apply_normal py_int (ri : run_info) c s n w :
  ri !! "runs_off_bat" = Some s -> py_int s = Some n ->
  apply_calculator ri c (NormalRunCalculator py_int) w = run_part n c w.
Proof.
  intros Hs Hn. unfold run_part. case_bool_decide as Hpos.
  - rewrite apply_calculator_hit
      by (by rewrite (normal_matches _ _ _ Hs), Hn, bool_decide_eq_true_2).
    by apply (normal_calculate _ _ s).
  - apply apply_calculator_miss.
    by rewrite (normal_matches _ _ _ Hs), Hn, bool_decide_eq_false_2.
Qed.

(** C3, as the code has it.  A cell that is no integer makes [int] raise
    [ValueError] when the calculator that reads it is reached, and
    nothing is undone: the event runs as a sequence of steps, and every
    step before the cell is read stays applied (should one of those steps
    raise, the sequence ends there with its exception).  The runs-off-bat
    cell is read first: malformed, the event ends before anything is
    changed.  The extras cell is read after the run mutation, which runs
    for a positive runs-off-bat.  A category cell is read only when the
    extras cell holds a positive integer, after the run mutation and
    after [add_extra] for every non-empty category cell before it, in the
    order wides, noballs, byes, legbyes, penalty.  When the extras cell
    holds an integer that is not positive, no category cell is read at
    all, and the event goes on to the wicket and the snapshot. *)
Theorem malformed_cell_is_not_rolled_back (py_int : string -> option Z)
    (ri : run_info) (w : World) (match_id : string) :
  ri !! "match_id" = Some match_id ->
  exists c,
    outcome (find_scorecard match_id) w = Ok c
    /\ let w1 := after (find_scorecard match_id) w in
       (objs w1 = objs w
        /\ forall c0 card, cards w !! c0 = Some card ->
                           cards w1 !! c0 = Some card)
       /\ (forall s,
             ri !! "runs_off_bat" = Some s -> py_int s = None ->
             dispatch py_int ri w = (w1, Raise (ValueError s)))
       /\ (forall s n x,
             ri !! "runs_off_bat" = Some s -> py_int s = Some n ->
             ri !! "extras" = Some x -> py_int x = None ->
             dispatch py_int ri w
             = (run_part n c ;; raise (ValueError x)) w1)
       /\ (forall s n x m before bad rest amounts cell,
             ri !! "runs_off_bat" = Some s -> py_int s = Some n ->
             ri !! "extras" = Some x -> py_int x = Some m -> m > 0 ->
             extra_types = before ++ bad :: rest ->
             read_cells py_int ri before = Some amounts ->
             ri !! bad = Some cell -> cell ≠ "" -> py_int cell = None ->
             dispatch py_int ri w
             = (run_part n c ;; extras_part amounts c ;;
                raise (ValueError cell)) w1)
       /\ (forall s n x m,
             ri !! "runs_off_bat" = Some s -> py_int s = Some n ->
             ri !! "extras" = Some x -> py_int x = Some m -> m <= 0 ->
             dispatch py_int ri w
             = (run_part n c ;; apply_calculator ri c WicketCalculator ;;
                on_card c ScoreCard.repr) w1).
Proof.
  intros Hid. destruct (find_scorecard_returns match_id w) as [c Hc].
  exists c. split; [exact Hc|]. cbv zeta.
  split; [apply find_scorecard_frame|].
  pose proof (dispatch_flat py_int ri match_id w c Hid Hc) as Hflat.
  split; [|split; [|split]].
  - intros s Hs Hbad. rewrite Hflat, bind_step.
    rewrite (apply_calculator_raise _ _ _ _ (ValueError s)); [reflexivity|].
    by rewrite (normal_matches _ _ _ Hs), Hbad.
  - intros s n x Hs Hn Hx Hbad. rewrite Hflat.
    apply bind_ext; [intros w0; by apply (apply_normal _ _ _ s)|].
    intros _ w2. rewrite bind_step.
    rewrite (apply_calculator_raise _ _ _ _ (ValueError x)); [reflexivity|].
    by rewrite (extra_matches _ _ _ Hx), Hbad.
  - intros s n x m before bad rest amounts cell
      Hs Hn Hx Hm Hpos Htypes Hread Hcell Hne Hbad.
    rewrite Hflat.
    apply bind_ext; [intros w0; by apply (apply_normal _ _ _ s)|].
    intros _ w2. rewrite bind_step, apply_calculator_hit
      by (by rewrite (extra_matches _ _ _ Hx), Hm, bool_decide_eq_true_2).
    assert (Hextra : on_card c (calculate_run (ExtraRunCalculator py_int) ri) w2
                     = bind (extras_part amounts c)
                         (fun _ => raise (ValueError cell)) w2).
    { unfold extras_part. rewrite <- on_card_then_raise.
      unfold on_card. apply zoom_ext. intros st.
      by apply (calculate_extras_malformed _ _ before bad rest). }
    rewrite Hextra, !then_raise_run. cbn [fst snd].
    by destruct (outcome (extras_part amounts c) w2).
  - intros s n x m Hs Hn Hx Hm Hle. rewrite Hflat.
    apply bind_ext; [intros w0; by apply (apply_normal _ _ _ s)|].
    intros _ w2. rewrite bind_step, apply_calculator_miss; [reflexivity|].
    rewrite (extra_matches _ _ _ Hx), Hm, bool_decide_eq_false_2; [done|lia].
Qed.

Lemma malformed_cell_is_not_rolled_back_witness :
  garbled_noballs !! "match_id" = Some "M1"
  /\ exists c,
       outcome (find_scorecard "M1") demo_world = Ok c
       /\ garbled_noballs !! "runs_off_bat" = Some "0"
       /\ decimal_literal "0" = Some 0
       /\ garbled_noballs !! "extras" = Some "2"
       /\ decimal_literal "2" = Some 2
       /\ read_cells decimal_literal garbled_noballs ["wides"]
          = Some [("wides", 1)]
       /\ garbled_noballs !! "noballs" = Some "x"
       /\ decimal_literal "x" = None
       /\ dispatch decimal_literal garbled_noballs demo_world
          = (run_part 0 c ;; extras_part [("wides", 1)] c ;;
             raise (ValueError "x")) (after (find_scorecard "M1") demo_world).
Proof.
  split; [reflexivity|].
  destruct (malformed_cell_is_not_rolled_back decimal_literal garbled_noballs
              demo_world "M1" eq_refl)
    as (c & Hc & _ & _ & _ & Hcategory & _).
  exists c. split; [exact Hc|]. do 7 (split; [reflexivity|]).
  apply (Hcategory "0" 0 "2" 2 ["wides"] "noballs"
           ["byes"; "legbyes"; "penalty"] [("wides", 1)] "x");
    try reflexivity; try lia; discriminate.
Defined.

(** The garbled no-balls cell, read after the wide has been recorded:
    the event is the wide followed by the [ValueError]. *)
Example garbled_noballs_after_the_wide :
  dispatch decimal_literal garbled_noballs demo_world
  = (run_part 0 0%nat ;; extras_part [("wides", 1)] 0%nat ;;
     raise (ValueError "x")) (after (find_scorecard "M1") demo_world)
  /\ outcome (dispatch decimal_literal garbled_noballs) demo_world
     = Raise (ValueError "x")
  /\ Team.extras
       (the_team
          (objs (after (dispatch decimal_literal garbled_noballs) demo_world))
          0%nat) !! "wides" = Some 1.
Proof. repeat split; vm_compute; reflexivity. Qed.

(** C3 as the spec states it fails: the extras cell [x] is no integer
    and the event ends in a [ValueError], yet the single off the bat has
    been credited to the striker and to the batting team. *)
Lemma garbled_extras_keeps_the_run :
  let w' := after (dispatch decimal_literal garbled_extras) demo_world in
  garbled_extras !! "extras" = Some "x"
  /\ decimal_literal "x" = None
  /\ outcome (dispatch decimal_literal garbled_extras) demo_world
     = Raise (ValueError "x")
  /\ BattingBehaviour.runs_scored
       (Player.batting_behaviour (the_player (objs demo_world) 0%nat)) = 0
  /\ BattingBehaviour.runs_scored
       (Player.batting_behaviour (the_player (objs w') 0%nat)) = 1
  /\ Team.runs_scored (the_team (objs demo_world) 0%nat) = 0
  /\ Team.runs_scored (the_team (objs w') 0%nat) = 1.
Proof. cbv zeta. repeat split; vm_compute; reflexivity. Qed.

(** C9, where the code departs from it: a no-ball hit for four with a
    run-out satisfies all three predicates, but the run mutation raises
    [KeyError] on the missing boundary bucket, so neither the extra nor
    the wicket is recorded. *)
Theorem boundary_event_loses_extra_and_wicket :
  let w' := after (dispatch decimal_literal four_off_a_no_ball) demo_world in
  matches_event (NormalRunCalculator decimal_literal) four_off_a_no_ball
  = Ok true
  /\ matches_event (ExtraRunCalculator decimal_literal) four_off_a_no_ball
     = Ok true
  /\ matches_event WicketCalculator four_off_a_no_ball = Ok true
  /\ outcome (dispatch decimal_literal four_off_a_no_ball) demo_world
     = Raise (KeyError (KInt 4))
  /\ Team.extras (the_team (objs w') 0%nat) = ∅
  /\ Team.wickets (the_team (objs w') 0%nat) = 0
  /\ Player.bowling_behaviour (the_player (objs w') 2%nat)
     = BowlingBehaviour.init.
Proof. cbv zeta. repeat split; vm_compute; reflexivity. Qed.

(** ** The batting team's ledger *)

Lemma extras_total_insert (d : gmap string Z) c v :
  extras_total (<[c := v]> d) = extras_total d - default 0 (d !! c) + v.
Proof.
  unfold extras_total.
  assert (Hcomm : forall (j1 j2 : string) (z1 z2 y : Z),
             z1 + (z2 + y) = z2 + (z1 + y)) by (intros; lia).
  destruct (d !! c) as [x|] eqn:Hc; cbn.
  - rewrite <- insert_delete_eq.
    rewrite map_fold_insert_L; [|by intros; apply Hcomm|apply lookup_delete_eq].
    rewrite (map_fold_delete_L _ _ c x d);
      [cbv beta; lia|by intros; apply Hcomm|exact Hc].
  - rewrite map_fold_insert_L; [cbv beta; lia|by intros; apply Hcomm|exact Hc].
Qed.

Lemma add_extras_run extra_type run (tm : Team.t) :
  Team.add_extras extra_type run tm
  = (Team.set_extras
       (<[extra_type := match Team.extras tm !! extra_type with
                        | Some old => old + run
                        | None => run
                        end]> (Team.extras tm)) tm,
     Ok tt).
Proof.
  unfold Team.add_extras, bind, get, modify.
  by destruct (Team.extras tm !! extra_type).
Qed.

Lemma add_extras_total extra_type run (tm : Team.t) :
  extras_total (Team.extras (after (Team.add_extras extra_type run) tm))
  = extras_total (Team.extras tm) + run.
Proof.
  unfold after. rewrite add_extras_run. cbn [fst Team.set_extras Team.extras].
  rewrite extras_total_insert.
  destruct (Team.extras tm !! extra_type); cbn; lia.
Qed.

Lemma batters_runs_cons h p roster :
  batters_runs h (p :: roster)
  = BattingBehaviour.runs_scored (Player.batting_behaviour (the_player h p))
    + batters_runs h roster.
Proof. reflexivity. Qed.

Lemma batters_runs_ext h h' roster :
  (forall p, BattingBehaviour.runs_scored
               (Player.batting_behaviour (the_player h' p))
             = BattingBehaviour.runs_scored
                 (Player.batting_behaviour (the_player h p))) ->
  batters_runs h' roster = batters_runs h roster.
Proof.
  intros Hsame. induction roster as [|p roster IH]; [reflexivity|].
  by rewrite !batters_runs_cons, Hsame, IH.
Qed.

Lemma batters_runs_outside h h' roster s :
  s ∉ roster ->
  (forall p, p ≠ s ->
             BattingBehaviour.runs_scored
               (Player.batting_behaviour (the_player h' p))
             = BattingBehaviour.runs_scored
                 (Player.batting_behaviour (the_player h p))) ->
  batters_runs h' roster = batters_runs h roster.
Proof.
  intros Hnot Hsame. induction roster as [|p roster IH]; [reflexivity|].
  apply not_elem_of_cons in Hnot as [Hne Hnot].
  rewrite !batters_runs_cons, Hsame by congruence. by rewrite IH.
Qed.

(** Crediting [run] to one batter listed once on the roster adds [run]
    to the roster's runs off the bat. *)
Lemma batters_runs_credit h h' roster s run :
  NoDup roster -> s ∈ roster ->
  BattingBehaviour.runs_scored (Player.batting_behaviour (the_player h' s))
  = BattingBehaviour.runs_scored (Player.batting_behaviour (the_player h s))
    + run ->
  (forall p, p ≠ s ->
             BattingBehaviour.runs_scored
               (Player.batting_behaviour (the_player h' p))
             = BattingBehaviour.runs_scored
                 (Player.batting_behaviour (the_player h p))) ->
  batters_runs h' roster = batters_runs h roster + run.
Proof.
  intros Hnodup Hin Hs Hsame.
  induction roster as [|p roster IH]; [by apply elem_of_nil in Hin|].
  apply NoDup_cons in Hnodup as [Hp Hnodup]. rewrite !batters_runs_cons.
  apply elem_of_cons in Hin as [->|Hin].
  - rewrite Hs, (batters_runs_outside h h' roster p Hp Hsame). lia.
  - assert (p ≠ s) as Hne by (intros ->; contradiction).
    rewrite (Hsame p Hne), (IH Hnodup Hin). lia.
Qed.

#[global] Instance same_setup_preorder : PreOrder same_setup.
Proof.
  split.
  - intros st. repeat split.
  - intros s1 s2 s3 (H1 & H2 & H3 & H4) (H5 & H6 & H7 & H8). repeat split.
    + by rewrite H5, H1.
    + by rewrite H6, H2.
    + by rewrite H7, H3.
    + intros l. by rewrite H8, H4.
Qed.

#[global] Instance same_accounts_preorder : PreOrder same_accounts.
Proof.
  split.
  - intros st. repeat split.
  - intros s1 s2 s3 [H1 H2] [H3 H4]. split.
    + intros l. destruct (H1 l) as [Ha Hb], (H3 l) as [Hc Hd].
      split; congruence.
    + intros p. by rewrite H4, H2.
Qed.

Lemma team_call_same_setup {A} l (m : M Team.t A) :
  (forall tm, Team.players (after m tm) = Team.players tm) ->
  keeps same_setup (ScoreCard.in_heap (on_team l m)).
Proof.
  intros Hm st. unfold same_setup. rewrite in_heap_self, in_heap_heap.
  repeat split. intros k. destruct (decide (l = k)) as [->|Hne].
  - by rewrite on_team_same.
  - by rewrite on_team_other.
Qed.

Lemma player_call_same_setup {A} p (m : M Player.t A) :
  keeps same_setup (ScoreCard.in_heap (on_player p m)).
Proof.
  intros st. unfold same_setup. rewrite in_heap_self, in_heap_heap.
  repeat split. intros k. by rewrite on_player_teams.
Qed.

Lemma team_call_same_accounts {A} l (m : M Team.t A) :
  (forall tm, Team.runs_scored (after m tm) = Team.runs_scored tm
              /\ Team.extras (after m tm) = Team.extras tm) ->
  keeps same_accounts (ScoreCard.in_heap (on_team l m)).
Proof.
  intros Hm st. unfold same_accounts. rewrite in_heap_heap. split.
  - intros k. destruct (decide (l = k)) as [->|Hne].
    + rewrite on_team_same. apply Hm.
    + by rewrite on_team_other.
  - intros p. by rewrite on_team_players.
Qed.

Lemma bowling_call_same_accounts {A} b (m : M BowlingBehaviour.t A) :
  keeps same_accounts (ScoreCard.in_heap (on_player b (Player.bowling m))).
Proof.
  intros st. unfold same_accounts. rewrite in_heap_heap. split.
  - intros k. by rewrite on_player_teams.
  - intros p. by rewrite bowling_call_batting.
Qed.

Ltac setup_step :=
  first [ apply (deref_keeps same_setup)
        | apply player_call_same_setup
        | apply team_call_same_setup; intros ?; reflexivity
        | apply (keeps_bind same_setup); [|intros ?] ].

Lemma team_add_extras_players extra_type run tm :
  Team.players (after (Team.add_extras extra_type run) tm) = Team.players tm.
Proof. unfold after. by rewrite add_extras_run. Qed.

(** None of the four mutations rebinds a team or the striker, or edits
    a roster. *)
Lemma apply_same_setup m : keeps same_setup (apply m).
Proof.
  destruct m as [n|category n| |]; cbn [apply].
  - unfold ScoreCard.add_run. repeat setup_step.
  - unfold ScoreCard.add_extra. repeat setup_step;
      apply team_call_same_setup; apply team_add_extras_players.
  - unfold ScoreCard.add_wicket. repeat setup_step.
  - unfold ScoreCard.add_ball. apply (keeps_bind same_setup).
    + intros st. repeat split.
    + intros _. repeat setup_step.
Qed.

Ltac accounts_step :=
  first [ apply (deref_keeps same_accounts)
        | apply bowling_call_same_accounts
        | apply team_call_same_accounts; intros ?; split; reflexivity
        | apply (keeps_bind same_accounts); [|intros ?] ].

Lemma add_wicket_same_accounts : keeps same_accounts ScoreCard.add_wicket.
Proof. unfold ScoreCard.add_wicket. repeat accounts_step. Qed.

Lemma add_ball_same_accounts : keeps same_accounts ScoreCard.add_ball.
Proof.
  unfold ScoreCard.add_ball. apply (keeps_bind same_accounts).
  - intros st. repeat split.
  - intros _. repeat accounts_step.
Qed.

Lemma ready_same_setup st st' bt :
  same_setup st st' -> batting_side_ready st bt -> batting_side_ready st' bt.
Proof.
  intros (Hbt & Hbw & Hs & Hroster) (Rbt & Rbw & Rs & Rnodup).
  unfold batting_side_ready. by rewrite Hbt, Hbw, Hs, Hroster.
Qed.

Lemma balanced_same_accounts st st' bt :
  same_setup st st' -> same_accounts st st' ->
  team_balanced (ScoreCard.heap st) bt -> team_balanced (ScoreCard.heap st') bt.
Proof.
  intros (_ & _ & _ & Hroster) [Hteams Hplayers] Hbal.
  unfold team_balanced in *. destruct (Hteams bt) as [Hruns Hextras].
  rewrite Hruns, Hextras, Hroster.
  by rewrite (batters_runs_ext (ScoreCard.heap st) (ScoreCard.heap st')).
Qed.

(** A bowling-statistics call does not disturb any team's balance. *)
Lemma balanced_bowling_call {A} b (m : M BowlingBehaviour.t A) h l :
  team_balanced h l ->
  team_balanced (after (on_player b (Player.bowling m)) h) l.
Proof.
  unfold team_balanced. intros Hbal. rewrite on_player_teams.
  rewrite (batters_runs_ext h); [exact Hbal|].
  intros p. by rewrite bowling_call_batting.
Qed.

(** Where [add_run] can leave the store when the batting team and the
    striker are set: after the team and the striker have been credited,
    with or without the two calls on the bowler. *)
Lemma add_run_heap run st bt s :
  ScoreCard.batting_team (ScoreCard.self st) = Some bt ->
  ScoreCard.striker (ScoreCard.self st) = Some s ->
  let h2 := after (on_player s (Player.batting (BattingBehaviour.add_run run)))
              (after (on_team bt (Team.add_run run)) (ScoreCard.heap st)) in
  ScoreCard.heap (after (ScoreCard.add_run run) st) = h2
  \/ exists b,
       ScoreCard.heap (after (ScoreCard.add_run run) st)
       = after (on_player b (Player.bowling BowlingBehaviour.add_ball))
           (after (on_player b (Player.bowling (BowlingBehaviour.add_run run)))
              h2).
Proof.
  intros Hbt Hs h2.
  assert (Hafter : after (ScoreCard.add_run run) st
                   = fst (ScoreCard.add_run run st)) by reflexivity.
  rewrite add_run_run, Hbt, Hs in Hafter. cbv zeta in Hafter.
  rewrite Hafter.
  destruct (outcome (BattingBehaviour.add_run run) _) as [[]|e];
    [|by left].
  destruct (ScoreCard.current_bowler (ScoreCard.self st)) as [b|];
    [right; by exists b|by left].
Qed.

Lemma add_run_balanced run st bt :
  batting_side_ready st bt ->
  team_balanced (ScoreCard.heap st) bt ->
  team_balanced (ScoreCard.heap (after (ScoreCard.add_run run) st)) bt.
Proof.
  intros (Hbt & _ & (s & Hs & Hin) & Hnodup) Hbal.
  set (h := ScoreCard.heap st) in *.
  set (h2 := after (on_player s (Player.batting (BattingBehaviour.add_run run)))
               (after (on_team bt (Team.add_run run)) h)).
  assert (Hbal2 : team_balanced h2 bt).
  { unfold team_balanced in *. subst h2.
    rewrite on_player_teams, on_team_same.
    change (Team.runs_scored (after (Team.add_run run) (the_team h bt)))
      with (Team.runs_scored (the_team h bt) + run).
    change (Team.players (after (Team.add_run run) (the_team h bt)))
      with (Team.players (the_team h bt)).
    change (Team.extras (after (Team.add_run run) (the_team h bt)))
      with (Team.extras (the_team h bt)).
    rewrite (batters_runs_credit h _ _ s run Hnodup Hin); [lia| |].
    - rewrite batting_call_same, on_team_players, batting_add_run_after.
      reflexivity.
    - intros p Hne. by rewrite on_player_other, on_team_players. }
  destruct (add_run_heap run st bt s Hbt Hs) as [->|[b ->]]; fold h h2.
  - exact Hbal2.
  - by do 2 apply balanced_bowling_call.
Qed.

Lemma team_call_run {A} l (m : M Team.t A) st a :
  (forall tm, outcome m tm = Ok a) ->
  ScoreCard.in_heap (on_team l m) st
  = (ScoreCard.mkState (ScoreCard.self st)
       (after (on_team l m) (ScoreCard.heap st)), Ok a).
Proof.
  intros Hm. rewrite in_heap_run. f_equal.
  unfold outcome. rewrite on_team_run. apply Hm.
Qed.

Lemma bowling_call_run {A} b (m : M BowlingBehaviour.t A) st a :
  (forall bb, outcome m bb = Ok a) ->
  ScoreCard.in_heap (on_player b (Player.bowling m)) st
  = (ScoreCard.mkState (ScoreCard.self st)
       (after (on_player b (Player.bowling m)) (ScoreCard.heap st)), Ok a).
Proof.
  intros Hm. rewrite in_heap_run. f_equal.
  unfold outcome. rewrite on_player_run. cbn [snd].
  unfold outcome. rewrite bowling_run. apply Hm.
Qed.

Lemma team_add_extras_returns extra_type run tm :
  outcome (Team.add_extras extra_type run) tm = Ok tt.
Proof. unfold outcome. by rewrite add_extras_run. Qed.

Lemma bowling_add_extra_returns extra_type run bb :
  outcome (BowlingBehaviour.add_extra extra_type run) bb = Ok tt.
Proof.
  unfold outcome, BowlingBehaviour.add_extra, BowlingBehaviour.add_run,
    bind, modify, ret.
  repeat case_bool_decide; reflexivity.
Qed.

(** [ScoreCard.add_extra] with both teams set: the three team calls
    always go through; only a missing bowler stops it, after them. *)
Lemma add_extra_run extra_type run st bt bw :
  ScoreCard.batting_team (ScoreCard.self st) = Some bt ->
  ScoreCard.bowling_team (ScoreCard.self st) = Some bw ->
  let h3 := after (on_team bt (Team.add_run run))
              (after (on_team bw (Team.add_extras extra_type run))
                 (after (on_team bt (Team.add_extras extra_type run))
                    (ScoreCard.heap st))) in
  ScoreCard.add_extra extra_type run st
  = match ScoreCard.current_bowler (ScoreCard.self st) with
    | None => (ScoreCard.mkState (ScoreCard.self st) h3,
               Raise (AttributeError "bowling_behaviour"))
    | Some b =>
        (ScoreCard.mkState (ScoreCard.self st)
           (after (on_player b
                     (Player.bowling
                        (BowlingBehaviour.add_extra extra_type run))) h3),
         Ok tt)
    end.
Proof.
  intros Hbt Hbw. cbv zeta. unfold ScoreCard.add_extra.
  rewrite bind_step, deref_run. cbn [fst snd]. rewrite Hbt.
  rewrite bind_step, (team_call_run _ _ _ tt)
    by apply team_add_extras_returns.
  cbn [fst snd ScoreCard.self ScoreCard.heap].
  rewrite bind_step, deref_run. cbn [fst snd ScoreCard.self]. rewrite Hbw.
  rewrite bind_step, (team_call_run _ _ _ tt)
    by apply team_add_extras_returns.
  cbn [fst snd ScoreCard.self ScoreCard.heap].
  rewrite bind_step, deref_run. cbn [fst snd ScoreCard.self]. rewrite Hbt.
  rewrite bind_step, (team_call_run _ _ _ tt) by reflexivity.
  cbn [fst snd ScoreCard.self ScoreCard.heap].
  rewrite bind_step, deref_run. cbn [fst snd ScoreCard.self].
  destruct (ScoreCard.current_bowler (ScoreCard.self st)) as [b|];
    [|reflexivity].
  rewrite (bowling_call_run _ _ _ tt) by apply bowling_add_extra_returns.
  reflexivity.
Qed.

Lemma add_extra_balanced extra_type run st bt :
  batting_side_ready st bt ->
  team_balanced (ScoreCard.heap st) bt ->
  team_balanced
    (ScoreCard.heap (after (ScoreCard.add_extra extra_type run) st)) bt.
Proof.
  intros (Hbt & (bw & Hbw & Hne) & _ & _) Hbal.
  set (h := ScoreCard.heap st) in *.
  set (h3 := after (on_team bt (Team.add_run run))
               (after (on_team bw (Team.add_extras extra_type run))
                  (after (on_team bt (Team.add_extras extra_type run)) h))).
  assert (Hbal3 : team_balanced h3 bt).
  { unfold team_balanced in *. subst h3.
    rewrite on_team_same, on_team_other, on_team_same by exact Hne.
    set (tm := after (Team.add_extras extra_type run) (the_team h bt)).
    change (Team.runs_scored (after (Team.add_run run) tm))
      with (Team.runs_scored tm + run).
    change (Team.players (after (Team.add_run run) tm)) with (Team.players tm).
    change (Team.extras (after (Team.add_run run) tm)) with (Team.extras tm).
    subst tm. rewrite add_extras_total, team_add_extras_players.
    assert (Hruns : Team.runs_scored
                      (after (Team.add_extras extra_type run) (the_team h bt))
                    = Team.runs_scored (the_team h bt))
      by (unfold after; by rewrite add_extras_run).
    rewrite Hruns, (batters_runs_ext h); [lia|].
    intros p. by rewrite !on_team_players. }
  assert (Hafter : after (ScoreCard.add_extra extra_type run) st
                   = fst (ScoreCard.add_extra extra_type run st))
    by reflexivity.
  rewrite (add_extra_run _ _ _ bt bw Hbt Hbw) in Hafter. cbv zeta in Hafter.
  rewrite Hafter. fold h h3.
  destruct (ScoreCard.current_bowler (ScoreCard.self st)) as [b|];
    cbn [fst ScoreCard.heap].
  - by apply balanced_bowling_call.
  - exact Hbal3.
Qed.

(** One mutation, returning or raising, keeps a ready batting side
    ready and a balanced ledger balanced. *)
Lemma apply_balanced m st bt :
  batting_side_ready st bt ->
  team_balanced (ScoreCard.heap st) bt ->
  batting_side_ready (after (apply m) st) bt
  /\ team_balanced (ScoreCard.heap (after (apply m) st)) bt.
Proof.
  intros Hready Hbal. split.
  - exact (ready_same_setup _ _ _ (apply_same_setup m st) Hready).
  - destruct m as [n|category n| |]; cbn [apply].
    + by apply add_run_balanced.
    + by apply add_extra_balanced.
    + exact (balanced_same_accounts _ _ _ (apply_same_setup applyWicket st)
               (add_wicket_same_accounts st) Hbal).
    + exact (balanced_same_accounts _ _ _ (apply_same_setup applyBallBowled st)
               (add_ball_same_accounts st) Hbal).
Qed.

Lemma apply_all_balanced ms st bt :
  batting_side_ready st bt ->
  team_balanced (ScoreCard.heap st) bt ->
  batting_side_ready (apply_all ms st) bt
  /\ team_balanced (ScoreCard.heap (apply_all ms st)) bt.
Proof.
  revert st. induction ms as [|m ms IH]; intros st Hready Hbal.
  - by split.
  - cbn [apply_all foldl]. destruct (apply_balanced m st bt Hready Hbal).
    by apply IH.
Qed.

(** C2: start from a match state in which the batting team's total
    equals its batters' runs off the bat plus its extras.  Then the
    equality holds after every prefix of every sequence of the four
    mutations, that is after each single mutation, also one that raised
    part-way. *)
Theorem team_total_stays_balanced (ms : list mutation)
    (st : ScoreCard.state) (bt : nat) :
  batting_side_ready st bt ->
  team_balanced (ScoreCard.heap st) bt ->
  forall k : nat, team_balanced (ScoreCard.heap (apply_all (take k ms) st)) bt.
Proof.
  intros Hready Hbal k. by apply apply_all_balanced.
Qed.

Lemma demo_state_ready : batting_side_ready demo_state 0%nat.
Proof.
  split; [reflexivity|]. split; [exists 1%nat; by split|].
  split.
  - exists 0%nat. split; [reflexivity|]. vm_compute. apply list_elem_of_here.
  - vm_compute. apply NoDup_cons. split.
    + by intros [?|[]%elem_of_nil]%elem_of_cons.
    + apply NoDup_singleton.
Defined.

Lemma team_total_stays_balanced_witness :
  batting_side_ready demo_state 0%nat
  /\ team_balanced demo_heap 0%nat
  /\ forall k : nat,
       team_balanced
         (ScoreCard.heap (apply_all (take k demo_over) demo_state)) 0%nat.
Proof.
  split; [exact demo_state_ready|]. split; [vm_compute; reflexivity|].
  apply (team_total_stays_balanced demo_over demo_state 0%nat).
  - exact demo_state_ready.
  - vm_compute. reflexivity.
Defined.

(** The over of the example, run to its end: the four stops in the
    [KeyError], so the bowler has the single's ball and the two balls
    bowled; the ledger of the batting team still balances. *)
Example demo_over_totals :
  let h := ScoreCard.heap (apply_all demo_over demo_state) in
  Team.runs_scored (the_team h 0%nat) = 6
  /\ batters_runs h (Team.players (the_team h 0%nat)) = 5
  /\ extras_total (Team.extras (the_team h 0%nat)) = 1
  /\ Team.wickets (the_team h 0%nat) = 1
  /\ legal_balls h 2%nat = 3.
Proof. cbv zeta. repeat split; vm_compute; reflexivity. Qed.

(** ** Overs on a six-ball scorecard *)

(** With six balls per over configured, [get_overs] returns the completed
    overs and the balls into the current over, from which the ball
    counter can be read back, and it leaves the scorecard as it was. *)
Theorem get_overs_six (st : ScoreCard.state) :
  ScoreCard.balls_per_over (ScoreCard.self st) = Some 6 ->
  exists overs rest,
    ScoreCard.get_overs st = (st, Ok (overs, rest))
    /\ 6 * overs + rest = ScoreCard.balls (ScoreCard.self st)
    /\ 0 <= rest < 6.
Proof.
  intros Hsix.
  exists (ScoreCard.balls (ScoreCard.self st) / 6),
         (ScoreCard.balls (ScoreCard.self st) mod 6).
  split.
  - unfold ScoreCard.get_overs, bind, get, lift. by rewrite Hsix.
  - apply (calculate_six_pair (ScoreCard.balls (ScoreCard.self st))).
Qed.

Lemma get_overs_six_witness :
  exists overs rest,
    ScoreCard.get_overs demo_state = (demo_state, Ok (overs, rest))
    /\ 6 * overs + rest = ScoreCard.balls (ScoreCard.self demo_state)
    /\ 0 <= rest < 6.
Proof. apply (get_overs_six demo_state). reflexivity. Defined.

(** ** The stream entry point never gets through *)

(** Whatever the message, [handle_stream_message] ends in an exception.
    A message of at most five fields goes to the info parser, whose
    [get_scorecard()] call passes no argument for [match_id] and is
    refused with a [TypeError]; a longer one goes to the score parser and
    ends in the [KeyError] of ['match_id'].  Nothing is printed, and no
    team, player or scorecard is touched; only [Matches()] has run. *)
Theorem handle_stream_message_always_raises (py_int : string -> option Z)
    (event : list string) (w : World) (printed : list (option ScoreCardRepr)) :
  handle_stream_message py_int event w printed
  = ((after Matches.new w, printed),
     if bool_decide (length event <= 5)%nat
     then TypeError (missing_arguments "get_scorecard" ["match_id"])
     else Uncaught (KeyError (KStr "match_id")))
  /\ objs (after Matches.new w) = objs w
  /\ cards (after Matches.new w) = cards w.
Proof.
  split; [|apply new_frame].
  unfold handle_stream_message, parser_factory.
  case_bool_decide; cbn [Parser_parse].
  - unfold InfoEntryParser_parse. rewrite (run_pair Matches.new w).
    change (outcome Matches.new w) with (Ok (A := unit) tt).
    reflexivity.
  - unfold parse, make_dict, dispatch. rewrite bind_step.
    change (snd (Matches.new w)) with (Ok (A := unit) tt). cbv iota.
    rewrite bind_step. unfold lift at 1 2, getitem. rewrite lookup_empty.
    reflexivity.
Qed.

(** ** A batter's record over an innings *)

Lemma batting_add_run_no_bucket run (b : BattingBehaviour.t) :
  BattingBehaviour.boundaries b = ∅ ->
  after (BattingBehaviour.add_run run) b
  = BattingBehaviour.mk (BattingBehaviour.runs_scored b + run)
      (BattingBehaviour.balls_faced b + 1)
      (BattingBehaviour.boundary_types b) ∅.
Proof.
  intros Hempty. rewrite batting_add_run_after, Hempty, lookup_empty.
  by case_bool_decide.
Qed.

Lemma bat_all_cons run runs (b : BattingBehaviour.t) :
  bat_all (run :: runs) b = bat_all runs (after (BattingBehaviour.add_run run) b).
Proof. reflexivity. Qed.

Lemma bat_all_no_bucket runs (b : BattingBehaviour.t) :
  BattingBehaviour.boundaries b = ∅ ->
  BattingBehaviour.boundaries (bat_all runs b) = ∅
  /\ BattingBehaviour.boundary_types (bat_all runs b)
     = BattingBehaviour.boundary_types b
  /\ BattingBehaviour.runs_scored (bat_all runs b)
     = BattingBehaviour.runs_scored b + sum_runs runs
  /\ BattingBehaviour.balls_faced (bat_all runs b)
     = BattingBehaviour.balls_faced b + Z.of_nat (length runs).
Proof.
  revert b. induction runs as [|run runs IH]; intros b Hempty.
  - cbn. repeat split; [exact Hempty|lia|lia].
  - rewrite !bat_all_cons, (batting_add_run_no_bucket run b Hempty).
    match goal with
    | |- context [bat_all runs ?b'] =>
        destruct (IH b' eq_refl) as (H1 & H2 & H3 & H4)
    end.
    rewrite H1, H2, H3, H4. cbn [BattingBehaviour.boundary_types
      BattingBehaviour.runs_scored BattingBehaviour.balls_faced sum_runs foldr
      length].
    fold (sum_runs runs). repeat split; lia.
Qed.

(** A newly constructed batting record never gets a boundary bucket:
    after any sequence of [add_run] calls the [boundaries] dict is still
    empty, the runs are the sum of the values passed and the balls faced
    their number (raising calls included), and the next call raises
    [KeyError] exactly for the values 4 and 6. *)
Theorem fresh_batter_never_records_a_boundary (runs : list Z) (next : Z) :
  let b := bat_all runs BattingBehaviour.init in
  BattingBehaviour.boundaries b = ∅
  /\ BattingBehaviour.runs_scored b = sum_runs runs
  /\ BattingBehaviour.balls_faced b = Z.of_nat (length runs)
  /\ outcome (BattingBehaviour.add_run next) b
     = if bool_decide (next = 4 \/ next = 6)
       then Raise (KeyError (KInt next)) else Ok tt.
Proof.
  cbv zeta.
  destruct (bat_all_no_bucket runs BattingBehaviour.init eq_refl)
    as (H1 & H2 & H3 & H4).
  split; [exact H1|]. split; [rewrite H3; cbn; lia|].
  split; [rewrite H4; cbn; lia|].
  rewrite batting_add_run_outcome, H1, H2, lookup_empty.
  cbn [BattingBehaviour.boundary_types BattingBehaviour.init].
  apply bool_decide_ext_if.
  rewrite elem_of_cons, list_elem_of_singleton. tauto.
Qed.

(** ** A team's extras ledger *)

(** [add_extras] accumulates per category: the category's entry becomes
    its old amount (nothing counts as 0) plus the new one and every other
    entry stays; roster, total and wickets stay; and two additions to one
    category amount to one addition of the sum. *)
Theorem add_extras_accumulates (extra_type other : string) (run more : Z)
    (tm : Team.t) :
  let tm' := after (Team.add_extras extra_type run) tm in
  Team.extras tm' !! other
  = (if bool_decide (other = extra_type)
     then Some (default 0 (Team.extras tm !! extra_type) + run)
     else Team.extras tm !! other)
  /\ Team.players tm' = Team.players tm
  /\ Team.runs_scored tm' = Team.runs_scored tm
  /\ Team.wickets tm' = Team.wickets tm
  /\ after (Team.add_extras extra_type more) tm'
     = after (Team.add_extras extra_type (run + more)) tm.
Proof.
  cbv zeta. unfold after. rewrite !add_extras_run.
  cbn [fst Team.set_extras Team.extras Team.players Team.runs_scored
       Team.wickets].
  split.
  { case_bool_decide as Heq.
    - subst other. rewrite lookup_insert_eq.
      by destruct (Team.extras tm !! extra_type); cbn; f_equal; lia.
    - by rewrite lookup_insert_ne. }
  repeat (split; [reflexivity|]).
  rewrite lookup_insert_eq, insert_insert_eq.
  destruct (Team.extras tm !! extra_type) as [old|]; unfold Team.set_extras;
    cbn [Team.players Team.runs_scored Team.wickets].
  - by replace (old + run + more) with (old + (run + more)) by lia.
  - reflexivity.
Qed.

(** ** A bowler's figures *)

Lemma bowl_sane (c : bowling_call) (b : BowlingBehaviour.t) :
  0 <= amount_of c ->
  bowling_figures_sane b -> bowling_figures_sane (after (bowl c) b).
Proof.
  intros Hamount (H1 & H2 & H3 & H4 & H5). unfold bowling_figures_sane.
  destruct c as [| |run|extra_type run]; cbn in Hamount;
    unfold after, bowl, BowlingBehaviour.add_ball, BowlingBehaviour.add_wicket,
      BowlingBehaviour.add_run, BowlingBehaviour.add_extra, bind, modify, ret;
    repeat case_bool_decide; cbn; repeat split; lia.
Qed.

(** Whatever a bowler is charged with, in whatever order, as long as no
    amount is negative: no counter goes negative, and the wides and
    no-balls conceded never exceed the runs conceded. *)
Theorem bowling_figures_stay_sane (cs : list bowling_call)
    (b : BowlingBehaviour.t) :
  Forall (fun c => 0 <= amount_of c) cs ->
  bowling_figures_sane b ->
  bowling_figures_sane (bowl_all cs b).
Proof.
  intros Hcs. revert b. induction Hcs as [|c cs Hc Hcs IH]; intros b Hb.
  - exact Hb.
  - cbn [bowl_all foldl]. apply IH. by apply bowl_sane.
Qed.

Lemma bowling_figures_stay_sane_witness :
  bowling_figures_sane
    (bowl_all [bowl_run 4; bowl_extra "wides" 1; bowl_ball; bowl_wicket;
               bowl_extra "byes" 2; bowl_extra "noballs" 1]
       BowlingBehaviour.init).
Proof.
  apply (bowling_figures_stay_sane
           [bowl_run 4; bowl_extra "wides" 1; bowl_ball; bowl_wicket;
            bowl_extra "byes" 2; bowl_extra "noballs" 1]
           BowlingBehaviour.init).
  - repeat constructor; cbn; lia.
  - repeat split; cbn; lia.
Defined.

(** ** Scorecards in the registry *)

Lemma get_scorecard_registered match_id w c :
  outcome (Matches.get_scorecard match_id) w = Ok c ->
  Matches_matches (after (Matches.get_scorecard match_id) w) !! match_id
  = Some c.
Proof.
  unfold outcome, after, Matches.get_scorecard, bind, get, modify, ret.
  destruct (Matches_matches w !! match_id) as [c0|] eqn:Hid; cbn [fst snd].
  - intros [= <-]. exact Hid.
  - intros [= <-]. cbn. apply lookup_insert_eq.
Qed.

(** Asking again for the same match gives the same scorecard and changes
    nothing: the registry is a lookup-or-create. *)
Theorem get_scorecard_again (match_id : string) (w : World) :
  let w1 := after (Matches.get_scorecard match_id) w in
  exists c,
    outcome (Matches.get_scorecard match_id) w = Ok c
    /\ Matches.get_scorecard match_id w1 = (w1, Ok c).
Proof.
  cbv zeta. destruct (get_scorecard_returns match_id w) as [c Hc].
  exists c. split; [exact Hc|].
  pose proof (get_scorecard_registered match_id w c Hc) as Hreg.
  unfold Matches.get_scorecard at 1. unfold bind, get. by rewrite Hreg.
Qed.

Lemma get_scorecard_sound (match_id : string) (w : World) :
  registry_sound w ->
  registry_sound (after (Matches.get_scorecard match_id) w).
Proof.
  intros [Hlive Hinj].
  unfold after, Matches.get_scorecard, bind, get, modify, ret.
  destruct (Matches_matches w !! match_id) as [c0|] eqn:Hid; cbn [fst snd];
    [by split|].
  set (c := fresh (dom (cards w))).
  assert (Hfresh : cards w !! c = None)
    by (apply not_elem_of_dom, is_fresh).
  split; cbn [Matches_matches cards].
  - intros id c' Hlook. destruct (decide (match_id = id)) as [->|Hne].
    + rewrite lookup_insert_eq in Hlook. injection Hlook as <-.
      rewrite lookup_insert_eq. by eexists.
    + rewrite lookup_insert_ne in Hlook by exact Hne.
      destruct (Hlive id c' Hlook) as [card Hcard].
      exists card. rewrite lookup_insert_ne; [exact Hcard|].
      intros <-. congruence.
  - intros id1 id2 c' H1 H2.
    destruct (decide (match_id = id1)) as [E1|Hne1],
             (decide (match_id = id2)) as [E2|Hne2].
    + congruence.
    + subst id1. rewrite lookup_insert_eq in H1. injection H1 as <-.
      rewrite lookup_insert_ne in H2 by exact Hne2.
      destruct (Hlive id2 c H2) as [card Hcard]. congruence.
    + subst id2. rewrite lookup_insert_eq in H2. injection H2 as <-.
      rewrite lookup_insert_ne in H1 by exact Hne1.
      destruct (Hlive id1 c H1) as [card Hcard]. congruence.
    + rewrite lookup_insert_ne in H1 by exact Hne1.
      rewrite lookup_insert_ne in H2 by exact Hne2.
      by apply (Hinj id1 id2 c').
Qed.

(** The lookup keeps the registry sound: identifiers keep pointing at
    existing scorecards, one scorecard each; and the first instantiation
    of [Matches], which empties the registry, does too. *)
Theorem get_scorecard_keeps_registry_sound (match_id : string) (w : World) :
  registry_sound w ->
  registry_sound (after (Matches.get_scorecard match_id) w)
  /\ registry_sound (after (find_scorecard match_id) w).
Proof.
  intros Hsound. split; [by apply get_scorecard_sound|].
  change (after (find_scorecard match_id) w)
    with (after (Matches.get_scorecard match_id) (after Matches.new w)).
  apply get_scorecard_sound.
  unfold after, Matches.new, modify. cbn [fst].
  destruct (Matches_instance w); [exact Hsound|].
  split; cbn [Matches_matches]; intros *; by rewrite lookup_empty.
Qed.

Lemma demo_world_sound : registry_sound demo_world.
Proof.
  assert (Hreg : forall id c, Matches_matches demo_world !! id = Some c ->
                              id = "M1" /\ c = 0%nat).
  { intros id c. unfold demo_world. cbn [Matches_matches].
    destruct (decide ("M1" = id)) as [<-|Hne].
    - rewrite lookup_insert_eq. by intros [= <-].
    - rewrite lookup_insert_ne, lookup_empty by exact Hne. discriminate. }
  split.
  - intros id c [_ ->]%Hreg. by eexists.
  - intros id1 id2 c [-> _]%Hreg [-> _]%Hreg. reflexivity.
Defined.

Lemma get_scorecard_keeps_registry_sound_witness :
  registry_sound demo_world
  /\ registry_sound (after (Matches.get_scorecard "M2") demo_world)
  /\ registry_sound (after (find_scorecard "M2") demo_world).
Proof.
  split; [exact demo_world_sound|].
  apply (get_scorecard_keeps_registry_sound "M2" demo_world).
  exact demo_world_sound.
Defined.

(** In a sound registry two different match identifiers never end up
    with the same scorecard, whichever of them is new. *)
Theorem different_matches_different_scorecards (id1 id2 : string)
    (w : World) (c1 c2 : nat) :
  registry_sound w ->
  id1 ≠ id2 ->
  outcome (Matches.get_scorecard id1) w = Ok c1 ->
  outcome (Matches.get_scorecard id2) (after (Matches.get_scorecard id1) w)
  = Ok c2 ->
  c1 ≠ c2.
Proof.
  intros Hsound Hne H1 H2 Heq. subst c2.
  set (w1 := after (Matches.get_scorecard id1) w) in *.
  pose proof (get_scorecard_registered id1 w c1 H1) as Hreg1. fold w1 in Hreg1.
  pose proof (get_scorecard_registered id2 w1 c1 H2) as Hreg2.
  assert (Hsound2 : registry_sound (after (Matches.get_scorecard id2) w1)).
  { apply get_scorecard_sound. subst w1. by apply get_scorecard_sound. }
  assert (Hkeep : Matches_matches (after (Matches.get_scorecard id2) w1) !! id1
                  = Some c1).
  { unfold after, Matches.get_scorecard, bind, get, modify, ret.
    destruct (Matches_matches w1 !! id2); cbn [fst snd Matches_matches];
      [exact Hreg1|].
    by rewrite lookup_insert_ne by congruence. }
  destruct Hsound2 as [_ Hinj]. apply Hne. exact (Hinj id1 id2 c1 Hkeep Hreg2).
Qed.

Lemma different_matches_different_scorecards_witness :
  exists c1 c2,
    outcome (Matches.get_scorecard "M1") demo_world = Ok c1
    /\ outcome (Matches.get_scorecard "M2")
         (after (Matches.get_scorecard "M1") demo_world) = Ok c2
    /\ c1 ≠ c2.
Proof.
  exists 0%nat, 1%nat. split; [reflexivity|]. split; [reflexivity|].
  apply (different_matches_different_scorecards "M1" "M2" demo_world).
  - exact demo_world_sound.
  - discriminate.
  - reflexivity.
  - reflexivity.
Defined.

(** ** What extras, wickets and balls bowled leave alone *)

#[global] Instance same_batting_preorder : PreOrder same_batting.
Proof.
  split.
  - intros st p. reflexivity.
  - intros s1 s2 s3 H1 H2 p. by rewrite H2, H1.
Qed.

Lemma team_call_same_batting {A} l (m : M Team.t A) :
  keeps same_batting (ScoreCard.in_heap (on_team l m)).
Proof.
  intros st p. rewrite in_heap_heap. by rewrite on_team_players.
Qed.

Lemma bowling_call_same_batting {A} b (m : M BowlingBehaviour.t A) :
  keeps same_batting (ScoreCard.in_heap (on_player b (Player.bowling m))).
Proof.
  intros st p. rewrite in_heap_heap. apply bowling_call_batting.
Qed.

Ltac batting_step :=
  first [ apply (deref_keeps same_batting)
        | apply team_call_same_batting
        | apply bowling_call_same_batting
        | apply (keeps_bind same_batting); [|intros ?] ].

(** Only runs off the bat reach a batting record: an extra, a wicket or
    a ball bowled changes no player's runs, balls faced or boundaries,
    whether the call returns or raises. *)
Theorem batting_records_untouched (extra_type : string) (run : Z)
    (st : ScoreCard.state) :
  same_batting st (after (ScoreCard.add_extra extra_type run) st)
  /\ same_batting st (after ScoreCard.add_wicket st)
  /\ same_batting st (after ScoreCard.add_ball st).
Proof.
  split; [|split].
  - revert st. change (keeps same_batting (ScoreCard.add_extra extra_type run)).
    unfold ScoreCard.add_extra. repeat batting_step.
  - revert st. change (keeps same_batting ScoreCard.add_wicket).
    unfold ScoreCard.add_wicket. repeat batting_step.
  - revert st. change (keeps same_batting ScoreCard.add_ball).
    unfold ScoreCard.add_ball. apply (keeps_bind same_batting).
    + intros st p. reflexivity.
    + intros _. repeat batting_step.
Qed.

(** ** A ball bowled *)

Lemma add_ball_run st :
  ScoreCard.add_ball st
  = let c1 := ScoreCard.set_balls (ScoreCard.balls (ScoreCard.self st) + 1)
                (ScoreCard.self st) in
    match ScoreCard.current_bowler (ScoreCard.self st) with
    | None => (ScoreCard.mkState c1 (ScoreCard.heap st),
               Raise (AttributeError "bowling_behaviour"))
    | Some b =>
        (ScoreCard.mkState c1
           (after (on_player b (Player.bowling BowlingBehaviour.add_ball))
              (ScoreCard.heap st)),
         Ok tt)
    end.
Proof.
  cbv zeta. unfold ScoreCard.add_ball. rewrite bind_step.
  unfold ScoreCard.set_self at 1 2, modify. cbn [fst snd].
  rewrite bind_step, deref_run.
  cbn [fst snd ScoreCard.self ScoreCard.set_balls ScoreCard.current_bowler].
  destruct (ScoreCard.current_bowler (ScoreCard.self st)) as [b|];
    [|reflexivity].
  by rewrite (bowling_call_run _ _ _ tt) by reflexivity.
Qed.

(** [add_ball] always advances the match ball counter by one, and the
    current bowler's legal balls by one with it.  With no bowler set it
    raises the [AttributeError] only after the counter has been advanced,
    leaving the store as it was. *)
Theorem add_ball_counts (st : ScoreCard.state) :
  let st' := after ScoreCard.add_ball st in
  ScoreCard.balls (ScoreCard.self st') = ScoreCard.balls (ScoreCard.self st) + 1
  /\ match ScoreCard.current_bowler (ScoreCard.self st) with
     | None =>
         outcome ScoreCard.add_ball st
         = Raise (AttributeError "bowling_behaviour")
         /\ ScoreCard.heap st' = ScoreCard.heap st
     | Some b =>
         outcome ScoreCard.add_ball st = Ok tt
         /\ legal_balls (ScoreCard.heap st') b
            = legal_balls (ScoreCard.heap st) b + 1
         /\ (forall p, p ≠ b ->
                       the_player (ScoreCard.heap st') p
                       = the_player (ScoreCard.heap st) p)
         /\ forall l, the_team (ScoreCard.heap st') l
                      = the_team (ScoreCard.heap st) l
     end.
Proof.
  cbv zeta. unfold after at 1 2 3 4 5, outcome. rewrite add_ball_run. cbv zeta.
  destruct (ScoreCard.current_bowler (ScoreCard.self st)) as [b|];
    cbn [fst snd ScoreCard.self ScoreCard.heap ScoreCard.set_balls
         ScoreCard.balls].
  - split; [reflexivity|]. split; [reflexivity|]. split; [|split].
    + unfold legal_balls. by rewrite bowling_call_same.
    + intros p Hne. by apply on_player_other.
    + intros l. apply on_player_teams.
  - repeat split.
Qed.

(** ** A wicket *)

Lemma add_wicket_run st bt bw :
  ScoreCard.batting_team (ScoreCard.self st) = Some bt ->
  ScoreCard.bowling_team (ScoreCard.self st) = Some bw ->
  let h2 := after (on_team bw Team.add_wicket)
              (after (on_team bt Team.add_wicket) (ScoreCard.heap st)) in
  ScoreCard.add_wicket st
  = match ScoreCard.current_bowler (ScoreCard.self st) with
    | None => (ScoreCard.mkState (ScoreCard.self st) h2,
               Raise (AttributeError "bowling_behaviour"))
    | Some b =>
        (ScoreCard.mkState (ScoreCard.self st)
           (after (on_player b (Player.bowling BowlingBehaviour.add_wicket)) h2),
         Ok tt)
    end.
Proof.
  intros Hbt Hbw. cbv zeta. unfold ScoreCard.add_wicket.
  rewrite bind_step, deref_run. cbn [fst snd]. rewrite Hbt.
  rewrite bind_step, (team_call_run _ _ _ tt) by reflexivity.
  cbn [fst snd ScoreCard.self ScoreCard.heap].
  rewrite bind_step, deref_run. cbn [fst snd ScoreCard.self]. rewrite Hbw.
  rewrite bind_step, (team_call_run _ _ _ tt) by reflexivity.
  cbn [fst snd ScoreCard.self ScoreCard.heap].
  rewrite bind_step, deref_run. cbn [fst snd ScoreCard.self].
  destruct (ScoreCard.current_bowler (ScoreCard.self st)) as [b|];
    [|reflexivity].
  by rewrite (bowling_call_run _ _ _ tt) by reflexivity.
Qed.

(** [add_wicket] with both teams and the bowler set: it returns, the
    bowler gets one wicket, and each team's wicket count goes up by one;
    by two when one team object plays both sides, since the count is
    bumped through each reference. *)
Theorem add_wicket_counts (st : ScoreCard.state) (bt bw b : nat) :
  ScoreCard.batting_team (ScoreCard.self st) = Some bt ->
  ScoreCard.bowling_team (ScoreCard.self st) = Some bw ->
  ScoreCard.current_bowler (ScoreCard.self st) = Some b ->
  let h := ScoreCard.heap st in
  let h' := ScoreCard.heap (after ScoreCard.add_wicket st) in
  let step := if bool_decide (bt = bw) then 2 else 1 in
  outcome ScoreCard.add_wicket st = Ok tt
  /\ ScoreCard.self (after ScoreCard.add_wicket st) = ScoreCard.self st
  /\ Team.wickets (the_team h' bt) = Team.wickets (the_team h bt) + step
  /\ Team.wickets (the_team h' bw) = Team.wickets (the_team h bw) + step
  /\ BowlingBehaviour.wickets_taken (Player.bowling_behaviour (the_player h' b))
     = BowlingBehaviour.wickets_taken (Player.bowling_behaviour (the_player h b))
       + 1.
Proof.
  intros Hbt Hbw Hb h h' step.
  assert (Hrun := add_wicket_run st bt bw Hbt Hbw). cbv zeta in Hrun.
  rewrite Hb in Hrun. fold h in Hrun.
  assert (Hafter : after ScoreCard.add_wicket st
                   = fst (ScoreCard.add_wicket st)) by reflexivity.
  assert (Hout : outcome ScoreCard.add_wicket st
                 = snd (ScoreCard.add_wicket st)) by reflexivity.
  rewrite Hrun in Hafter, Hout. cbn [fst snd] in Hafter, Hout.
  subst h'. rewrite Hafter. cbn [ScoreCard.self ScoreCard.heap].
  split; [exact Hout|]. split; [reflexivity|].
  rewrite !on_player_teams, bowling_call_same, !on_team_players.
  subst step. case_bool_decide as Heq.
  - subst bw. rewrite !on_team_same. cbn. repeat split; lia.
  - rewrite on_team_same, on_team_other, on_team_same by congruence.
    rewrite (on_team_other bt _ h bw) by exact Heq. cbn. repeat split; lia.
Qed.

Lemma add_wicket_counts_witness :
  outcome ScoreCard.add_wicket demo_state = Ok tt
  /\ ScoreCard.self (after ScoreCard.add_wicket demo_state)
     = ScoreCard.self demo_state
  /\ Team.wickets
       (the_team (ScoreCard.heap (after ScoreCard.add_wicket demo_state)) 0%nat)
     = Team.wickets (the_team demo_heap 0%nat) + 1
  /\ Team.wickets
       (the_team (ScoreCard.heap (after ScoreCard.add_wicket demo_state)) 1%nat)
     = Team.wickets (the_team demo_heap 1%nat) + 1
  /\ BowlingBehaviour.wickets_taken
       (Player.bowling_behaviour
          (the_player (ScoreCard.heap (after ScoreCard.add_wicket demo_state))
             2%nat))
     = BowlingBehaviour.wickets_taken
         (Player.bowling_behaviour (the_player demo_heap 2%nat)) + 1.
Proof.
  apply (add_wicket_counts demo_state 0%nat 1%nat 2%nat); reflexivity.
Defined.

(** ** An extra *)

Lemma add_extras_entry extra_type run (tm : Team.t) :
  Team.extras (after (Team.add_extras extra_type run) tm) !! extra_type
  = Some (default 0 (Team.extras tm !! extra_type) + run)
  /\ Team.runs_scored (after (Team.add_extras extra_type run) tm)
     = Team.runs_scored tm.
Proof.
  unfold after. rewrite add_extras_run.
  cbn [fst Team.set_extras Team.extras Team.runs_scored].
  rewrite lookup_insert_eq. split; [|reflexivity].
  destruct (Team.extras tm !! extra_type); cbn; f_equal; lia.
Qed.

Lemma bowling_add_extra_after extra_type run (b : BowlingBehaviour.t) :
  after (BowlingBehaviour.add_extra extra_type run) b
  = BowlingBehaviour.mk
      (BowlingBehaviour.wickets_taken b)
      (BowlingBehaviour.runs_accumulated b + run)
      (BowlingBehaviour.balls_done b)
      (BowlingBehaviour.wides b
       + if bool_decide (extra_type = "wides") then run else 0)
      (BowlingBehaviour.no_balls b
       + if bool_decide (extra_type = "noballs") then run else 0).
Proof.
  unfold after, BowlingBehaviour.add_extra, BowlingBehaviour.add_run,
    bind, modify, ret.
  repeat case_bool_decide; subst; try discriminate; cbn; f_equal; lia.
Qed.

(** [add_extra] between two different teams with the bowler set.  The
    batting team gets the amount under the category and in its total.
    The bowling team gets it under the category too, but not in its
    total.  The bowler concedes the amount, which also goes to his wides
    for the category [wides], to his no-balls for [noballs], and to
    neither for any other category. *)
Theorem add_extra_ledger (extra_type : string) (run : Z)
    (st : ScoreCard.state) (bt bw b : nat) :
  ScoreCard.batting_team (ScoreCard.self st) = Some bt ->
  ScoreCard.bowling_team (ScoreCard.self st) = Some bw ->
  bt ≠ bw ->
  ScoreCard.current_bowler (ScoreCard.self st) = Some b ->
  let h := ScoreCard.heap st in
  let h' := ScoreCard.heap (after (ScoreCard.add_extra extra_type run) st) in
  let bowl := Player.bowling_behaviour (the_player h b) in
  let bowl' := Player.bowling_behaviour (the_player h' b) in
  outcome (ScoreCard.add_extra extra_type run) st = Ok tt
  /\ Team.extras (the_team h' bt) !! extra_type
     = Some (default 0 (Team.extras (the_team h bt) !! extra_type) + run)
  /\ Team.runs_scored (the_team h' bt) = Team.runs_scored (the_team h bt) + run
  /\ Team.extras (the_team h' bw) !! extra_type
     = Some (default 0 (Team.extras (the_team h bw) !! extra_type) + run)
  /\ Team.runs_scored (the_team h' bw) = Team.runs_scored (the_team h bw)
  /\ BowlingBehaviour.runs_accumulated bowl'
     = BowlingBehaviour.runs_accumulated bowl + run
  /\ BowlingBehaviour.wides bowl'
     = BowlingBehaviour.wides bowl
       + (if bool_decide (extra_type = "wides") then run else 0)
  /\ BowlingBehaviour.no_balls bowl'
     = BowlingBehaviour.no_balls bowl
       + (if bool_decide (extra_type = "noballs") then run else 0).
Proof.
  intros Hbt Hbw Hne Hb h h' bowl bowl'.
  assert (Hrun := add_extra_run extra_type run st bt bw Hbt Hbw).
  cbv zeta in Hrun. rewrite Hb in Hrun. fold h in Hrun.
  assert (Hafter : after (ScoreCard.add_extra extra_type run) st
                   = fst (ScoreCard.add_extra extra_type run st))
    by reflexivity.
  assert (Hout : outcome (ScoreCard.add_extra extra_type run) st
                 = snd (ScoreCard.add_extra extra_type run st))
    by reflexivity.
  rewrite Hrun in Hafter, Hout. cbn [fst snd] in Hafter, Hout.
  subst bowl' h'. rewrite Hafter. cbn [ScoreCard.heap].
  split; [exact Hout|].
  rewrite !on_player_teams, bowling_call_same, !on_team_players.
  fold bowl. rewrite bowling_add_extra_after.
  cbn [BowlingBehaviour.runs_accumulated BowlingBehaviour.wides
       BowlingBehaviour.no_balls].
  rewrite on_team_same, (on_team_other bw _ _ bt), on_team_same by congruence.
  rewrite (on_team_other bt _ _ bw), on_team_same, (on_team_other bt _ h bw)
    by exact Hne.
  destruct (add_extras_entry extra_type run (the_team h bt)) as [Hbt1 Hbt2].
  destruct (add_extras_entry extra_type run (the_team h bw)) as [Hbw1 Hbw2].
  change (Team.extras (after (Team.add_run run) ?tm)) with (Team.extras tm).
  repeat split; try assumption.
  cbn [after Team.add_run modify fst Team.runs_scored]. by rewrite Hbt2.
Qed.

Lemma add_extra_ledger_witness :
  let h' := ScoreCard.heap (after (ScoreCard.add_extra "wides" 1) demo_state) in
  outcome (ScoreCard.add_extra "wides" 1) demo_state = Ok tt
  /\ Team.extras (the_team h' 0%nat) !! "wides"
     = Some (default 0 (Team.extras (the_team demo_heap 0%nat) !! "wides") + 1)
  /\ Team.runs_scored (the_team h' 0%nat)
     = Team.runs_scored (the_team demo_heap 0%nat) + 1
  /\ Team.extras (the_team h' 1%nat) !! "wides"
     = Some (default 0 (Team.extras (the_team demo_heap 1%nat) !! "wides") + 1)
  /\ Team.runs_scored (the_team h' 1%nat)
     = Team.runs_scored (the_team demo_heap 1%nat)
  /\ BowlingBehaviour.runs_accumulated
       (Player.bowling_behaviour (the_player h' 2%nat))
     = BowlingBehaviour.runs_accumulated
         (Player.bowling_behaviour (the_player demo_heap 2%nat)) + 1
  /\ BowlingBehaviour.wides (Player.bowling_behaviour (the_player h' 2%nat))
     = BowlingBehaviour.wides
         (Player.bowling_behaviour (the_player demo_heap 2%nat))
       + (if bool_decide ("wides" = "wides") then 1 else 0)
  /\ BowlingBehaviour.no_balls (Player.bowling_behaviour (the_player h' 2%nat))
     = BowlingBehaviour.no_balls
         (Player.bowling_behaviour (the_player demo_heap 2%nat))
       + (if bool_decide ("wides" = "noballs") then 1 else 0).
Proof.
  apply (add_extra_ledger "wides" 1 demo_state 0%nat 1%nat 2%nat);
    [reflexivity|reflexivity|discriminate|reflexivity].
Defined.

(** ** The snapshot *)

(** [__repr__] only reads: it leaves the state as it found it.  It
    returns the snapshot, overs included, exactly when six balls per over
    are configured, and otherwise ends in the [AttributeError] of
    [get_overs]. *)
Theorem repr_is_read_only (st : ScoreCard.state) :
  let c := ScoreCard.self st in
  let h := ScoreCard.heap st in
  after ScoreCard.repr st = st
  /\ outcome ScoreCard.repr st
     = if bool_decide (ScoreCard.balls_per_over c = Some 6) then
         Ok (mkScoreCardRepr (ScoreCard.date c) (ScoreCard.venue c)
               (ScoreCard.city c)
               (Team_repr h <$> (the_team h <$> ScoreCard.batting_team c))
               (Team_repr h <$> (the_team h <$> ScoreCard.bowling_team c))
               (the_player h <$> ScoreCard.striker c)
               (the_player h <$> ScoreCard.non_striker c)
               (the_player h <$> ScoreCard.current_bowler c)
               (ScoreCard.balls c / 6, ScoreCard.balls c mod 6))
       else Raise (AttributeError "calculate").
Proof.
  cbv zeta.
  unfold after, outcome, ScoreCard.repr, ScoreCard.get_overs, bind, get, lift,
    ret, raise, get_over_calculator.
  by case_bool_decide.
Qed.

(** ** Extras with no category *)

Lemma for_each_noop {S A} (xs : list A) (body : A -> M S unit) s :
  (forall x, x ∈ xs -> body x s = (s, Ok tt)) ->
  for_each xs body s = (s, Ok tt).
Proof.
  induction xs as [|x xs IH]; intros Hbody; [reflexivity|].
  cbn [for_each]. rewrite bind_step, Hbody by apply list_elem_of_here.
  cbn [fst snd]. apply IH. intros y Hy. apply Hbody. by apply list_elem_of_further.
Qed.

(** When the five category cells are all empty, the extras calculator
    records nothing and returns, whatever the [extras] cell says: the
    amount is only ever read from the category cells. *)
Theorem extras_without_category_do_nothing (py_int : string -> option Z)
    (ri : run_info) (st : ScoreCard.state) :
  (forall extra_type, extra_type ∈ extra_types -> ri !! extra_type = Some "") ->
  calculate_run (ExtraRunCalculator py_int) ri st = (st, Ok tt).
Proof.
  intros Hempty. cbn [calculate_run ExtraRunCalculator].
  apply for_each_noop. intros extra_type Hin.
  unfold bind, lift, getitem. by rewrite (Hempty extra_type Hin).
Qed.

Lemma extras_without_category_do_nothing_witness :
  matches_event (ExtraRunCalculator decimal_literal) (score_row "0" "5" "" "")
  = Ok true
  /\ calculate_run (ExtraRunCalculator decimal_literal)
       (score_row "0" "5" "" "") demo_state
     = (demo_state, Ok tt).
Proof.
  split; [reflexivity|].
  apply (extras_without_category_do_nothing decimal_literal
           (score_row "0" "5" "" "") demo_state).
  intros extra_type Hin. unfold extra_types in Hin.
  repeat (apply elem_of_cons in Hin as [->|Hin]; [reflexivity|]).
  by apply elem_of_nil in Hin.
Defined.

(** ** Participants with one team missing *)

(** With the batting team set and no bowling team, [set_current_players]
    has already reassigned the striker and the non-striker when it raises
    the [AttributeError] of reading the bowling roster; the bowler
    reference and the store are as before. *)
Theorem set_current_players_without_bowling_team
    (striker_name non_striker_name bowler_name : string)
    (st : ScoreCard.state) (bt : nat) :
  ScoreCard.batting_team (ScoreCard.self st) = Some bt ->
  ScoreCard.bowling_team (ScoreCard.self st) = None ->
  let h := ScoreCard.heap st in
  let call :=
    ScoreCard.set_current_players striker_name non_striker_name bowler_name in
  let c' := ScoreCard.self (after call st) in
  outcome call st = Raise (AttributeError "players")
  /\ ScoreCard.heap (after call st) = h
  /\ ScoreCard.striker c'
     = resolve_name h (Team.players (the_team h bt)) striker_name
         (ScoreCard.striker (ScoreCard.self st))
  /\ ScoreCard.non_striker c'
     = resolve_name h (Team.players (the_team h bt)) non_striker_name
         (ScoreCard.non_striker (ScoreCard.self st))
  /\ ScoreCard.current_bowler c'
     = ScoreCard.current_bowler (ScoreCard.self st).
Proof.
  destruct st as [c h0]. cbn [ScoreCard.self ScoreCard.heap].
  intros Hbt Hbw. cbv zeta.
  set (o1 := last_named h0 (Team.players (the_team h0 bt)) striker_name).
  set (o2 := last_named h0 (Team.players (the_team h0 bt)) non_striker_name).
  set (c1 := assign_found ScoreCard.set_striker o1 c).
  set (c2 := assign_found ScoreCard.set_non_striker o2 c1).
  assert (Hbt1 : ScoreCard.batting_team c1 = Some bt).
  { subst c1. by destruct o1. }
  assert (Hbw2 : ScoreCard.bowling_team c2 = None).
  { subst c2 c1. by destruct o2, o1. }
  assert (Hrun : ScoreCard.set_current_players striker_name non_striker_name
                   bowler_name (ScoreCard.mkState c h0)
                 = (ScoreCard.mkState c2 h0, Raise (AttributeError "players"))).
  { unfold ScoreCard.set_current_players.
    rewrite bind_step, deref_run. cbn [fst snd ScoreCard.self]. rewrite Hbt.
    rewrite bind_step, !get_run. cbn [fst snd ScoreCard.heap].
    rewrite bind_step, pick_run by reflexivity.
    cbn [fst snd ScoreCard.self ScoreCard.heap]. fold o1 c1.
    rewrite bind_step, deref_run. cbn [fst snd ScoreCard.self]. rewrite Hbt1.
    rewrite bind_step, !get_run. cbn [fst snd ScoreCard.heap].
    rewrite bind_step, pick_run by reflexivity.
    cbn [fst snd ScoreCard.self ScoreCard.heap]. fold o2 c2.
    rewrite bind_step, deref_run. cbn [fst snd ScoreCard.self].
    by rewrite Hbw2. }
  unfold outcome, after. rewrite Hrun. cbn [fst snd ScoreCard.self ScoreCard.heap].
  split; [reflexivity|]. split; [reflexivity|].
  subst c2 c1. unfold resolve_name. fold o1 o2.
  by destruct o1, o2.
Qed.

Lemma set_current_players_without_bowling_team_witness :
  let st := ScoreCard.mkState
              (ScoreCard.mk (Some 6) None None None (Some 0%nat) None
                 None None None 0) demo_heap in
  let call := ScoreCard.set_current_players "A" "B" "X" in
  outcome call st = Raise (AttributeError "players")
  /\ ScoreCard.heap (after call st) = demo_heap
  /\ ScoreCard.striker (ScoreCard.self (after call st))
     = resolve_name demo_heap (Team.players (the_team demo_heap 0%nat)) "A" None
  /\ ScoreCard.non_striker (ScoreCard.self (after call st))
     = resolve_name demo_heap (Team.players (the_team demo_heap 0%nat)) "B" None
  /\ ScoreCard.current_bowler (ScoreCard.self (after call st)) = None.
Proof.
  apply (set_current_players_without_bowling_team "A" "B" "X"
           (ScoreCard.mkState
              (ScoreCard.mk (Some 6) None None None (Some 0%nat) None
                 None None None 0) demo_heap) 0%nat); reflexivity.
Defined.

(** ** An event for a match nobody set up *)

#[global] Instance untouched_when_blank_preorder : PreOrder untouched_when_blank.
Proof.
  split.
  - intros st _. reflexivity.
  - intros s1 s2 s3 H1 H2 Hblank. specialize (H1 Hblank). subst s2.
    by apply H2.
Qed.

#[global] Instance blank_card_kept_preorder c : PreOrder (blank_card_kept c).
Proof.
  split.
  - intros w Hblank. by repeat split.
  - intros w1 w2 w3 H1 H2 Hblank.
    destruct (H1 Hblank) as (Hb2 & Ho2 & Hm2).
    destruct (H2 Hb2) as (Hb3 & Ho3 & Hm3).
    repeat split; [exact Hb3|congruence|congruence].
Qed.

(** On a scorecard with no team set each mutation stops at its first
    attribute access, before anything is written. *)
Lemma add_run_blank run : keeps untouched_when_blank (ScoreCard.add_run run).
Proof.
  intros st Hblank. unfold after. by rewrite add_run_run, Hblank.
Qed.

Lemma add_extra_blank extra_type run :
  keeps untouched_when_blank (ScoreCard.add_extra extra_type run).
Proof.
  intros st Hblank. unfold after, ScoreCard.add_extra.
  by rewrite bind_step, deref_run, Hblank.
Qed.

Lemma add_wicket_blank : keeps untouched_when_blank ScoreCard.add_wicket.
Proof.
  intros st Hblank. unfold after, ScoreCard.add_wicket.
  by rewrite bind_step, deref_run, Hblank.
Qed.

Lemma calculate_run_blank py_int ri rc :
  rc ∈ get_run_calculators py_int ->
  keeps untouched_when_blank (calculate_run rc ri).
Proof.
  unfold get_run_calculators. intros Hin.
  repeat (apply elem_of_cons in Hin as [->|Hin]);
    [| | |by apply elem_of_nil in Hin]; cbn [calculate_run
      NormalRunCalculator ExtraRunCalculator WicketCalculator].
  - apply (keeps_bind untouched_when_blank);
      [apply (keeps_lift untouched_when_blank)|intros s].
    apply (keeps_bind untouched_when_blank);
      [apply (keeps_lift untouched_when_blank)|intros n].
    apply add_run_blank.
  - apply (keeps_for_each untouched_when_blank). intros extra_type.
    apply (keeps_bind untouched_when_blank);
      [apply (keeps_lift untouched_when_blank)|intros cell].
    case_bool_decide; [|apply (keeps_ret untouched_when_blank)].
    apply (keeps_bind untouched_when_blank);
      [apply (keeps_lift untouched_when_blank)|intros cell'].
    apply (keeps_bind untouched_when_blank);
      [apply (keeps_lift untouched_when_blank)|intros n].
    apply add_extra_blank.
  - apply add_wicket_blank.
Qed.

Lemma on_card_blank {A} c (m : M ScoreCard.state A) :
  keeps untouched_when_blank m -> keeps (blank_card_kept c) (on_card c m).
Proof.
  intros Hm w Hblank. unfold blank_card in *.
  specialize (Hm (ScoreCard.mkState (the_card w c) (objs w)) Hblank).
  unfold after, on_card, zoom in *.
  destruct (m (ScoreCard.mkState (the_card w c) (objs w))) as [st' r].
  cbn [fst] in *. subst st'. cbn [ScoreCard.self ScoreCard.heap].
  repeat split. unfold blank_card, the_card. cbn [cards].
  rewrite lookup_total_insert_eq. exact Hblank.
Qed.

Lemma apply_calculator_blank py_int ri c rc :
  rc ∈ get_run_calculators py_int ->
  keeps (blank_card_kept c) (apply_calculator ri c rc).
Proof.
  intros Hin. unfold apply_calculator.
  apply (keeps_bind (blank_card_kept c));
    [apply (keeps_lift (blank_card_kept c))|intros hit].
  destruct hit; [|apply (keeps_ret (blank_card_kept c))].
  apply on_card_blank. by apply (calculate_run_blank py_int).
Qed.

Lemma for_each_keeps_in {S A} (R : S -> S -> Prop) `{!PreOrder R}
    (xs : list A) (body : A -> M S unit) :
  (forall x, x ∈ xs -> keeps R (body x)) -> keeps R (for_each xs body).
Proof.
  induction xs as [|x xs IH]; intros Hbody; cbn [for_each].
  - apply (keeps_ret R).
  - apply (keeps_bind R); [apply Hbody, list_elem_of_here|intros _].
    apply IH. intros y Hy. apply Hbody. by apply list_elem_of_further.
Qed.

Lemma repr_blank_raises c w :
  blank_card c w ->
  outcome (on_card c ScoreCard.repr) w = Raise (AttributeError "calculate").
Proof.
  intros Hblank. unfold blank_card in Hblank.
  unfold outcome, on_card, zoom, ScoreCard.repr, ScoreCard.get_overs, bind,
    get, lift. cbn [ScoreCard.self]. by rewrite Hblank.
Qed.

(** A score event whose match the registry does not hold can never be
    processed: the lookup creates and registers an empty scorecard, and
    the event then always ends in an exception (the one the row's cells
    cause, or the [AttributeError] of a mutation or of the snapshot on a
    scorecard with nothing set).  The new scorecard is still empty
    afterwards and no team or player has changed. *)
Theorem event_for_unknown_match_always_raises (py_int : string -> option Z)
    (ri : run_info) (w : World) (match_id : string) :
  ri !! "match_id" = Some match_id ->
  Matches_matches (after Matches.new w) !! match_id = None ->
  let w' := after (dispatch py_int ri) w in
  (exists e, outcome (dispatch py_int ri) w = Raise e)
  /\ objs w' = objs w
  /\ exists c, Matches_matches w' !! match_id = Some c
               /\ cards w !! c = None
               /\ the_card w' c = ScoreCard.init.
Proof.
  intros Hid Hnew. cbv zeta.
  destruct (new_frame w) as [Hobjs0 Hcards0].
  set (w0 := after Matches.new w) in *.
  set (c := fresh (dom (cards w0))).
  set (w1 := mkWorld (objs w0) (<[c := ScoreCard.init]> (cards w0))
               (Matches_instance w0) (<[match_id := c]> (Matches_matches w0))).
  assert (Hfind : find_scorecard match_id w = (w1, Ok c)).
  { rewrite find_scorecard_run. fold w0.
    unfold Matches.get_scorecard, bind, get, modify, ret. by rewrite Hnew. }
  assert (Hblank1 : blank_card c w1).
  { unfold blank_card, the_card, w1. cbn [cards].
    apply lookup_total_insert_eq. }
  set (rest := (for_each (get_run_calculators py_int) (apply_calculator ri c) ;;
                on_card c ScoreCard.repr)).
  assert (Hdispatch : dispatch py_int ri w = rest w1).
  { rewrite (dispatch_run _ _ _ _ Hid). unfold outcome, after.
    by rewrite Hfind. }
  assert (Hloop : keeps (blank_card_kept c)
                    (for_each (get_run_calculators py_int)
                       (apply_calculator ri c))).
  { apply (for_each_keeps_in (blank_card_kept c)). intros rc Hrc.
    by apply (apply_calculator_blank py_int). }
  assert (Hrest : keeps (blank_card_kept c) rest).
  { apply (keeps_bind (blank_card_kept c)); [exact Hloop|intros _].
    apply on_card_blank. intros st _. unfold after.
    unfold ScoreCard.repr, ScoreCard.get_overs, bind, get, lift, ret, raise,
      get_over_calculator.
    by case_bool_decide. }
  destruct (Hrest w1 Hblank1) as (Hblank' & Hobjs' & Hmatches').
  unfold after, outcome. rewrite Hdispatch.
  fold (after rest w1). fold (outcome rest w1). split; [|split].
  - unfold outcome, rest. rewrite bind_run.
    destruct (outcome (for_each (get_run_calculators py_int)
                         (apply_calculator ri c)) w1) as [[]|e] eqn:Hout.
    + rewrite run_pair. cbn [snd]. eexists. apply repr_blank_raises.
      by destruct (Hloop w1 Hblank1).
    + by eexists.
  - rewrite Hobjs'. exact Hobjs0.
  - exists c. split; [|split].
    + rewrite Hmatches'. unfold w1. cbn [Matches_matches].
      apply lookup_insert_eq.
    + rewrite <- Hcards0. apply not_elem_of_dom, is_fresh.
    + exact Hblank'.
Qed.

Lemma event_for_unknown_match_always_raises_witness :
  let w := mkWorld demo_heap ∅ false ∅ in
  let w' := after (dispatch decimal_literal four_off_a_no_ball) w in
  four_off_a_no_ball !! "match_id" = Some "M1"
  /\ Matches_matches (after Matches.new w) !! "M1" = None
  /\ (exists e, outcome (dispatch decimal_literal four_off_a_no_ball) w
                = Raise e)
  /\ objs w' = objs w
  /\ exists c, Matches_matches w' !! "M1" = Some c
               /\ cards w !! c = None
               /\ the_card w' c = ScoreCard.init.
Proof.
  cbv zeta. split; [reflexivity|]. split; [reflexivity|].
  apply (event_for_unknown_match_always_raises decimal_literal
           four_off_a_no_ball (mkWorld demo_heap ∅ false ∅) "M1");
    reflexivity.
Defined.

Lemma add_run_counts_witness :
  let h := ScoreCard.heap demo_state in
  let bat := Player.batting_behaviour (the_player h 0%nat) in
  let bowl := Player.bowling_behaviour (the_player h 2%nat) in
  let h' := ScoreCard.heap (after (ScoreCard.add_run 1) demo_state) in
  let bat' := Player.batting_behaviour (the_player h' 0%nat) in
  let bowl' := Player.bowling_behaviour (the_player h' 2%nat) in
  outcome (ScoreCard.add_run 1) demo_state = Ok tt
  /\ Team.runs_scored (the_team h' 0%nat) = Team.runs_scored (the_team h 0%nat) + 1
  /\ BattingBehaviour.runs_scored bat' = BattingBehaviour.runs_scored bat + 1
  /\ BattingBehaviour.balls_faced bat' = BattingBehaviour.balls_faced bat + 1
  /\ (1 ∈ BattingBehaviour.boundary_types bat ->
      exists c, BattingBehaviour.boundaries bat !! 1 = Some c
                /\ BattingBehaviour.boundaries bat' !! 1 = Some (c + 1))
  /\ BowlingBehaviour.runs_accumulated bowl'
     = BowlingBehaviour.runs_accumulated bowl + 1
  /\ BowlingBehaviour.balls_done bowl' = BowlingBehaviour.balls_done bowl + 1.
Proof.
  apply (add_run_counts 1 demo_state 0%nat 0%nat 2%nat);
    [reflexivity|reflexivity|reflexivity|].
  intros Hin. exfalso. vm_compute in Hin.
  apply elem_of_cons in Hin as [Hin|Hin]; [discriminate|].
  apply elem_of_cons in Hin as [Hin|Hin]; [discriminate|].
  by apply elem_of_nil in Hin.
Defined.

(** A single off a no-ball with a run-out: run, extra and wicket are all
    recorded by the one event. *)
Example single_off_a_no_ball_with_a_run_out :
  let w' := after (dispatch decimal_literal (score_row "1" "1" "1" "run out"))
              demo_world in
  is_Ok (outcome (dispatch decimal_literal (score_row "1" "1" "1" "run out"))
           demo_world) = true
  /\ Team.runs_scored (the_team (objs w') 0%nat) = 2
  /\ Team.extras (the_team (objs w') 0%nat) !! "noballs" = Some 1
  /\ Team.wickets (the_team (objs w') 0%nat) = 1
  /\ BattingBehaviour.runs_scored
       (Player.batting_behaviour (the_player (objs w') 0%nat)) = 1.
Proof. cbv zeta. repeat split; vm_compute; reflexivity. Qed.

(** ** What the dispatcher never does *)

#[global] Instance same_counter_preorder : PreOrder same_counter.
Proof.
  split.
  - intros st. reflexivity.
  - intros s1 s2 s3 H1 H2. unfold same_counter in *. congruence.
Qed.

#[global] Instance counters_kept_preorder : PreOrder counters_kept.
Proof.
  split.
  - intros w c card Hc. by exists card.
  - intros w1 w2 w3 H1 H2 c card Hc.
    destruct (H1 c card Hc) as (card2 & Hc2 & Hb2).
    destruct (H2 c card2 Hc2) as (card3 & Hc3 & Hb3).
    exists card3. split; [exact Hc3|congruence].
Qed.

Lemma in_heap_same_counter {A} (m : M Heap A) :
  keeps same_counter (ScoreCard.in_heap m).
Proof. intros st. unfold same_counter. by rewrite in_heap_self. Qed.

Ltac counter_step :=
  first [ apply (deref_keeps same_counter)
        | apply in_heap_same_counter
        | apply (keeps_lift same_counter)
        | apply (keeps_ret same_counter)
        | apply (keeps_bind same_counter); [|intros ?] ].

Lemma calculate_run_same_counter py_int ri rc :
  rc ∈ get_run_calculators py_int ->
  keeps same_counter (calculate_run rc ri).
Proof.
  unfold get_run_calculators. intros Hin.
  repeat (apply elem_of_cons in Hin as [->|Hin]);
    [| | |by apply elem_of_nil in Hin]; cbn [calculate_run
      NormalRunCalculator ExtraRunCalculator WicketCalculator].
  - do 2 (apply (keeps_bind same_counter);
            [apply (keeps_lift same_counter)|intros ?]).
    unfold ScoreCard.add_run. repeat counter_step.
  - apply (keeps_for_each same_counter). intros extra_type.
    apply (keeps_bind same_counter);
      [apply (keeps_lift same_counter)|intros cell].
    case_bool_decide; [|apply (keeps_ret same_counter)].
    do 2 (apply (keeps_bind same_counter);
            [apply (keeps_lift same_counter)|intros ?]).
    unfold ScoreCard.add_extra. repeat counter_step.
  - unfold ScoreCard.add_wicket. repeat counter_step.
Qed.

Lemma on_card_counters_kept {A} c (m : M ScoreCard.state A) :
  keeps same_counter m -> keeps counters_kept (on_card c m).
Proof.
  intros Hm w c0 card Hc0.
  specialize (Hm (ScoreCard.mkState (the_card w c) (objs w))).
  unfold same_counter, after, on_card, zoom in *.
  destruct (m (ScoreCard.mkState (the_card w c) (objs w))) as [st' r].
  cbn [fst ScoreCard.self cards] in *.
  destruct (decide (c = c0)) as [->|Hne].
  - exists (ScoreCard.self st'). rewrite lookup_insert_eq. split; [reflexivity|].
    rewrite Hm. unfold the_card. by rewrite (lookup_total_correct _ _ _ Hc0).
  - exists card. by rewrite lookup_insert_ne.
Qed.

Lemma find_scorecard_counters_kept match_id :
  keeps counters_kept (find_scorecard match_id).
Proof.
  intros w c card Hc. exists card. split; [|reflexivity].
  by apply find_scorecard_frame.
Qed.

(** No score event ever advances a match ball counter: the dispatcher
    has no calculator that calls [add_ball], so whatever the row, every
    scorecard that existed before still exists with the counter it had. *)
Theorem dispatch_never_counts_a_ball (py_int : string -> option Z)
    (ri : run_info) (w : World) (c : nat) (card : ScoreCard.t) :
  cards w !! c = Some card ->
  exists card',
    cards (after (dispatch py_int ri) w) !! c = Some card'
    /\ ScoreCard.balls card' = ScoreCard.balls card.
Proof.
  revert c card. change (counters_kept w (after (dispatch py_int ri) w)).
  revert w. change (keeps counters_kept (dispatch py_int ri)).
  unfold dispatch.
  apply (keeps_bind counters_kept).
  { intros w c card Hc. exists card. split; [|reflexivity].
    destruct (new_frame w) as [_ Hcards]. by rewrite Hcards. }
  intros _. apply (keeps_bind counters_kept);
    [apply (keeps_lift counters_kept)|intros match_id].
  apply (keeps_bind counters_kept).
  { intros w c card Hc. exists card. split; [|reflexivity].
    by apply get_scorecard_frame. }
  intros scorecard. apply (keeps_bind counters_kept).
  - apply (for_each_keeps_in counters_kept). intros rc Hrc.
    unfold apply_calculator.
    apply (keeps_bind counters_kept);
      [apply (keeps_lift counters_kept)|intros hit].
    destruct hit; [|apply (keeps_ret counters_kept)].
    apply on_card_counters_kept. by apply (calculate_run_same_counter py_int).
  - intros _. apply on_card_counters_kept. intros st.
    destruct (ScoreCard.repr st) as [st' r] eqn:Hrepr.
    assert (Hst : st' = st).
    { revert Hrepr.
      unfold ScoreCard.repr, ScoreCard.get_overs, bind, get, lift, ret, raise,
        get_over_calculator.
      case_bool_decide; by intros [= <- _]. }
    unfold same_counter, after. by rewrite Hrepr, Hst.
Qed.

Lemma dispatch_never_counts_a_ball_witness :
  cards demo_world !! 0%nat = Some demo_card
  /\ exists card',
       cards (after (dispatch decimal_literal
                       (score_row "1" "1" "1" "run out")) demo_world) !! 0%nat
       = Some card'
       /\ ScoreCard.balls card' = ScoreCard.balls demo_card.
Proof.
  split; [reflexivity|].
  apply (dispatch_never_counts_a_ball decimal_literal
           (score_row "1" "1" "1" "run out") demo_world 0%nat demo_card).
  reflexivity.
Defined.

(** ** The registry object *)

(** [Matches()] behaves as a singleton constructor: it never touches a
    team, player or scorecard, it leaves the instance in place, a second
    instantiation changes nothing, and the registry is emptied by it only
    when no instance existed yet. *)
Theorem matches_is_a_singleton (w : World) :
  let w1 := after Matches.new w in
  Matches_instance w1 = true
  /\ after Matches.new w1 = w1
  /\ objs w1 = objs w
  /\ cards w1 = cards w
  /\ Matches_matches w1
     = (if Matches_instance w then Matches_matches w else ∅).
Proof.
  cbv zeta. unfold after, Matches.new, modify. cbn [fst].
  destruct (Matches_instance w) eqn:Hinst.
  - rewrite Hinst. by repeat split.
  - cbn [Matches_instance]. by repeat split.
Qed.

(** ** An event that is a run, an extra and a wicket at once *)

Lemma credited_then bt s b t1 x1 w1 r1 c1 k1 t2 x2 w2 r2 c2 k2 h h1 h2 :
  credited bt s b t1 x1 w1 r1 c1 k1 h h1 ->
  credited bt s b t2 x2 w2 r2 c2 k2 h1 h2 ->
  credited bt s b (t1 + t2) (x1 + x2) (w1 + w2) (r1 + r2) (c1 + c2) (k1 + k2)
    h h2.
Proof.
  unfold credited. intros (A1 & A2 & A3 & A4 & A5 & A6)
    (B1 & B2 & B3 & B4 & B5 & B6).
  rewrite B1, B2, B3, B4, B5, B6, A1, A2, A3, A4, A5, A6.
  repeat split; lia.
Qed.

Lemma add_run_credits card h bt s b run :
  ScoreCard.batting_team card = Some bt ->
  ScoreCard.striker card = Some s ->
  ScoreCard.current_bowler card = Some b ->
  run ∉ BattingBehaviour.boundary_types
          (Player.batting_behaviour (the_player h s)) ->
  exists h',
    ScoreCard.add_run run (ScoreCard.mkState card h)
    = (ScoreCard.mkState card h', Ok tt)
    /\ credited bt s b run 0 0 run run 0 h h'
    /\ forall p, BattingBehaviour.boundary_types
                   (Player.batting_behaviour (the_player h' p))
                 = BattingBehaviour.boundary_types
                     (Player.batting_behaviour (the_player h p)).
Proof.
  intros Hbt Hs Hb Hnot.
  assert (Hok : outcome (BattingBehaviour.add_run run)
                  (Player.batting_behaviour (the_player h s)) = Ok tt).
  { rewrite batting_add_run_outcome. by rewrite bool_decide_eq_false_2. }
  eexists. split; [|split].
  - rewrite add_run_run. cbn [ScoreCard.self ScoreCard.heap].
    rewrite Hbt, Hs, Hb. cbv zeta. rewrite on_team_players, Hok. reflexivity.
  - unfold credited.
    rewrite !on_player_teams, on_team_same.
    rewrite !bowling_call_batting, batting_call_same, on_team_players.
    rewrite !bowling_call_same, batting_call_bowling, on_team_players.
    rewrite batting_add_run_after. cbn. repeat split; lia.
  - intros p. rewrite !bowling_call_batting.
    destruct (decide (s = p)) as [<-|Hne].
    + by rewrite batting_call_same, on_team_players, batting_add_run_after.
    + by rewrite on_player_other, on_team_players.
Qed.

Lemma add_extra_credits card h bt bw s b extra_type run :
  ScoreCard.batting_team card = Some bt ->
  ScoreCard.bowling_team card = Some bw ->
  bt ≠ bw ->
  ScoreCard.current_bowler card = Some b ->
  exists h',
    ScoreCard.add_extra extra_type run (ScoreCard.mkState card h)
    = (ScoreCard.mkState card h', Ok tt)
    /\ credited bt s b run run 0 0 run 0 h h'.
Proof.
  intros Hbt Hbw Hne Hb. eexists. split.
  - rewrite (add_extra_run _ _ _ bt bw) by assumption. cbv zeta.
    cbn [ScoreCard.self ScoreCard.heap]. rewrite Hb. reflexivity.
  - unfold credited.
    rewrite !on_player_teams, bowling_call_batting, bowling_call_same,
      !on_team_players.
    rewrite on_team_same, (on_team_other bw _ _ bt), on_team_same by congruence.
    rewrite bowling_add_extra_after.
    set (tm := after (Team.add_extras extra_type run) (the_team h bt)).
    change (Team.runs_scored (after (Team.add_run run) tm))
      with (Team.runs_scored tm + run).
    change (Team.extras (after (Team.add_run run) tm)) with (Team.extras tm).
    change (Team.wickets (after (Team.add_run run) tm)) with (Team.wickets tm).
    subst tm. rewrite add_extras_total.
    destruct (add_extras_entry extra_type run (the_team h bt)) as [_ Hruns].
    rewrite Hruns.
    assert (Hwk : Team.wickets
                    (after (Team.add_extras extra_type run) (the_team h bt))
                  = Team.wickets (the_team h bt))
      by (unfold after; by rewrite add_extras_run).
    rewrite Hwk. cbn. repeat split; lia.
Qed.

Lemma add_extras_credit card h bt bw s b amounts :
  ScoreCard.batting_team card = Some bt ->
  ScoreCard.bowling_team card = Some bw ->
  bt ≠ bw ->
  ScoreCard.current_bowler card = Some b ->
  exists h',
    for_each amounts (fun entry => ScoreCard.add_extra entry.1 entry.2)
      (ScoreCard.mkState card h)
    = (ScoreCard.mkState card h', Ok tt)
    /\ credited bt s b (sum_amounts amounts) (sum_amounts amounts) 0 0
         (sum_amounts amounts) 0 h h'.
Proof.
  intros Hbt Hbw Hne Hb. revert h.
  induction amounts as [|[extra_type run] amounts IH]; intros h.
  - exists h. split; [reflexivity|]. unfold credited. cbn. repeat split; lia.
  - destruct (add_extra_credits card h bt bw s b extra_type run Hbt Hbw Hne Hb)
      as (h1 & Hrun1 & Hcred1).
    destruct (IH h1) as (h2 & Hrun2 & Hcred2).
    exists h2. split.
    + cbn [for_each fst snd]. by rewrite bind_step, Hrun1.
    + pose proof (credited_then _ _ _ _ _ _ _ _ _ _ _ _ _ _ _ _ _ _
                    Hcred1 Hcred2) as Hboth.
      cbn [sum_amounts foldr snd]. fold (sum_amounts amounts).
      by replace (0 + 0) with 0 in Hboth by lia.
Qed.

Lemma add_wicket_credits card h bt bw s b :
  ScoreCard.batting_team card = Some bt ->
  ScoreCard.bowling_team card = Some bw ->
  bt ≠ bw ->
  ScoreCard.current_bowler card = Some b ->
  exists h',
    ScoreCard.add_wicket (ScoreCard.mkState card h)
    = (ScoreCard.mkState card h', Ok tt)
    /\ credited bt s b 0 0 1 0 0 1 h h'.
Proof.
  intros Hbt Hbw Hne Hb. eexists. split.
  - rewrite (add_wicket_run _ bt bw) by assumption. cbv zeta.
    cbn [ScoreCard.self ScoreCard.heap]. rewrite Hb. reflexivity.
  - unfold credited.
    rewrite !on_player_teams, bowling_call_batting, bowling_call_same,
      !on_team_players.
    rewrite (on_team_other bw _ _ bt), on_team_same by congruence.
    cbn. repeat split; lia.
Qed.

(** A call on the scorecard at [c] that returns with the scorecard's own
    fields as they were. *)
Lemma on_card_known {A} c (m : M ScoreCard.state A) w card h' a :
  cards w !! c = Some card ->
  m (ScoreCard.mkState card (objs w)) = (ScoreCard.mkState card h', Ok a) ->
  exists w', on_card c m w = (w', Ok a)
             /\ objs w' = h' /\ cards w' !! c = Some card.
Proof.
  intros Hcard Hm. unfold on_card, zoom, the_card.
  rewrite (lookup_total_correct _ _ _ Hcard), Hm.
  eexists. split; [reflexivity|]. cbn. split; [reflexivity|].
  apply lookup_insert_eq.
Qed.

Lemma calculate_extras_all py_int ri amounts st :
  read_cells py_int ri extra_types = Some amounts ->
  calculate_run (ExtraRunCalculator py_int) ri st
  = bind (for_each amounts
            (fun entry => ScoreCard.add_extra entry.1 entry.2))
      (fun _ => ret tt) st.
Proof.
  intros Hread. rewrite calculate_extras_loop.
  rewrite <- (app_nil_r extra_types) at 1.
  by rewrite (record_extras_prefix _ _ _ _ _ _ Hread).
Qed.

(** An event that is at once a run off the bat, an extra and a wicket
    gets all three recorded.  On a scorecard with two different teams, a
    striker and a bowler: when the runs-off-bat cell holds a positive
    integer that is no boundary type of the striker, the extras cell a
    positive integer, every category cell is empty or an integer, and
    the wicket cell is not empty, the loop over the calculators returns,
    and afterwards the batting team has the run and the category amounts
    in its total, the category amounts in its extras and one more wicket;
    the striker has the run; the bowler has conceded the run and the
    category amounts and taken one more wicket. *)
Theorem matching_event_records_run_extra_and_wicket
    (py_int : string -> option Z) (ri : run_info) (w : World)
    (c : nat) (card : ScoreCard.t) (bt bw s b : nat)
    (runs_cell extras_cell wicket_cell : string) (run announced : Z)
    (amounts : list (string * Z)) :
  cards w !! c = Some card ->
  ScoreCard.batting_team card = Some bt ->
  ScoreCard.bowling_team card = Some bw ->
  bt ≠ bw ->
  ScoreCard.striker card = Some s ->
  ScoreCard.current_bowler card = Some b ->
  ri !! "runs_off_bat" = Some runs_cell ->
  py_int runs_cell = Some run ->
  run > 0 ->
  run ∉ BattingBehaviour.boundary_types
          (Player.batting_behaviour (the_player (objs w) s)) ->
  ri !! "extras" = Some extras_cell ->
  py_int extras_cell = Some announced ->
  announced > 0 ->
  read_cells py_int ri extra_types = Some amounts ->
  ri !! "wicket_type" = Some wicket_cell ->
  wicket_cell ≠ "" ->
  let loop := for_each (get_run_calculators py_int) (apply_calculator ri c) in
  outcome loop w = Ok tt
  /\ credited bt s b (run + sum_amounts amounts) (sum_amounts amounts) 1
       run (run + sum_amounts amounts) 1 (objs w) (objs (after loop w)).
Proof.
  intros Hcard Hbt Hbw Hne Hs Hb Hruns Hrun Hpos Hnot Hextras Hann Hannpos
    Hread Hwicket Hout loop.
  destruct (add_run_credits card (objs w) bt s b run Hbt Hs Hb Hnot)
    as (h1 & Hrun1 & Hcred1 & _).
  destruct (add_extras_credit card h1 bt bw s b amounts Hbt Hbw Hne Hb)
    as (h2 & Hrun2 & Hcred2).
  destruct (add_wicket_credits card h2 bt bw s b Hbt Hbw Hne Hb)
    as (h3 & Hrun3 & Hcred3).
  destruct (on_card_known c (ScoreCard.add_run run) w card h1 tt Hcard Hrun1)
    as (w1 & Hw1 & Hobjs1 & Hcard1).
  assert (Hextra_run :
            calculate_run (ExtraRunCalculator py_int) ri
              (ScoreCard.mkState card (objs w1))
            = (ScoreCard.mkState card h2, Ok tt)).
  { rewrite (calculate_extras_all _ _ _ _ Hread), bind_step, Hobjs1, Hrun2.
    reflexivity. }
  destruct (on_card_known c _ w1 card h2 tt Hcard1 Hextra_run)
    as (w2 & Hw2 & Hobjs2 & Hcard2).
  assert (Hwicket_run :
            calculate_run WicketCalculator ri
              (ScoreCard.mkState card (objs w2))
            = (ScoreCard.mkState card h3, Ok tt))
    by (by rewrite Hobjs2).
  destruct (on_card_known c _ w2 card h3 tt Hcard2 Hwicket_run)
    as (w3 & Hw3 & Hobjs3 & Hcard3).
  assert (Hloop : loop w = (w3, Ok tt)).
  { subst loop. rewrite (every_matching_calculator_runs py_int ri c w).
    - rewrite bind_step, (normal_calculate _ _ _ _ _ _ Hruns Hrun), Hw1.
      cbn [fst snd]. rewrite bind_step, Hw2. cbn [fst snd].
      rewrite bind_step, Hw3. reflexivity.
    - by rewrite (normal_matches _ _ _ Hruns), Hrun, bool_decide_eq_true_2.
    - by rewrite (extra_matches _ _ _ Hextras), Hann, bool_decide_eq_true_2.
    - cbn. unfold getitem. rewrite Hwicket. cbn.
      by rewrite bool_decide_eq_true_2. }
  unfold outcome, after. rewrite Hloop. cbn [fst snd].
  split; [reflexivity|]. rewrite Hobjs3.
  pose proof (credited_then _ _ _ _ _ _ _ _ _ _ _ _ _ _ _ _ _ _
                (credited_then _ _ _ _ _ _ _ _ _ _ _ _ _ _ _ _ _ _
                   Hcred1 Hcred2) Hcred3) as Hall.
  unfold credited in *. destruct Hall as (A1 & A2 & A3 & A4 & A5 & A6).
  rewrite A1, A2, A3, A4, A5, A6. repeat split; lia.
Qed.

Lemma matching_event_records_run_extra_and_wicket_witness :
  let ri := score_row "1" "1" "1" "run out" in
  let loop := for_each (get_run_calculators decimal_literal)
                (apply_calculator ri 0%nat) in
  outcome loop demo_world = Ok tt
  /\ credited 0%nat 0%nat 2%nat (1 + sum_amounts [("noballs", 1)])
       (sum_amounts [("noballs", 1)]) 1 1 (1 + sum_amounts [("noballs", 1)]) 1
       (objs demo_world) (objs (after loop demo_world)).
Proof.
  apply (matching_event_records_run_extra_and_wicket decimal_literal
           (score_row "1" "1" "1" "run out") demo_world 0%nat demo_card
           0%nat 1%nat 0%nat 2%nat "1" "1" "run out" 1 1 [("noballs", 1)]);
    try reflexivity; try discriminate.
  vm_compute. intros Hin.
  apply elem_of_cons in Hin as [Hin|Hin]; [discriminate|].
  apply elem_of_cons in Hin as [Hin|Hin]; [discriminate|].
  by apply elem_of_nil in Hin.
Defined.

(** The reading of two more garbled rows: a four with a garbled extras
    cell ends in the [KeyError] of the run mutation, which came first; no
    run with a garbled extras cell ends in the [ValueError] with nothing
    changed. *)
Example garbled_extras_after_a_four :
  dispatch decimal_literal (score_row "4" "x" "" "") demo_world
  = (run_part 4 0%nat ;; raise (ValueError "x"))
      (after (find_scorecard "M1") demo_world)
  /\ outcome (dispatch decimal_literal (score_row "4" "x" "" "")) demo_world
     = Raise (KeyError (KInt 4)).
Proof. split; vm_compute; reflexivity. Qed.

Example garbled_extras_without_a_run :
  dispatch decimal_literal (score_row "0" "x" "" "") demo_world
  = (after (find_scorecard "M1") demo_world, Raise (ValueError "x"))
  /\ objs (after (dispatch decimal_literal (score_row "0" "x" "" ""))
             demo_world)
     = objs demo_world.
Proof. split; vm_compute; reflexivity. Qed.
